(** * LNURL-pay links: a shallow embedding of [crud.py] and [lnurl.py]

    The development follows the two modules of the extension:
    - [crud.py]: the settings row with its relay side file, and the
      pay-link table (create, point lookups, partial update, counter
      increment, delete);
    - [lnurl.py]: the Pay Request (step 1) in its direct-id and its
      address form, and the invoice callback (step 2).

    Conventions of the model.
    - Python [str] is [string]; lengths count the characters of the
      model's strings (one per byte, which is Python's [len] on ASCII
      text).
    - Python [int] is [Z].  Python [float] is the binary64 [float] of the
      kernel: the amounts stored in a link ([min], [max]) and the fiat
      rate are floats, their products are rounded as the processor rounds
      them, an [int] is compared with a [float] on the exact values, and
      the quotient of two [int]s is the correctly rounded float.
    - The database, the relay file, and the invoices requested from the
      payment service form an explicit [World]; every operation is a
      function from a world to a result (a value or a raised exception)
      and a new world.  What a statement executed before an exception is
      raised stays executed.
    - The collaborators outside the two modules (rate oracle, invoice
      service, address format rule, URL reversal, metadata encoding,
      success action, number formatting, configured relay path) are the
      fields of the class [Collaborators]. *)

From Stdlib Require Import ZArith String Ascii List Bool Lia.
From Stdlib Require Import PrimFloat SpecFloat FloatOps.
From Stdlib Require Import DecimalString.
From Stdlib Require Import Permutation Sorted.
From Stdlib Require DecimalPos.
Import ListNotations.

Local Open Scope Z_scope.
Local Open Scope string_scope.

#[local] Set Warnings "-inexact-float".

(* ------------------------------------------------------------------ *)
(** * Python values used by the two modules *)
(* ------------------------------------------------------------------ *)

(** Truth value of an [Optional[str]]: [None] and the empty string are
    false. *)
Definition truthy (s : option string) : bool :=
  match s with
  | Some (String _ _) => true
  | _ => false
  end.

(** [x or ""] for an optional string. *)
Definition or_empty (s : option string) : string :=
  match s with
  | Some t => t
  | None => ""
  end.

(** [str(x)] for an optional string, as an f-string prints it. *)
Definition str_opt (s : option string) : string :=
  match s with
  | Some t => t
  | None => "None"
  end.

(** [len(s)]. *)
Definition len (s : string) : Z := Z.of_nat (String.length s).

(** [str(n)] for an [int]. *)
Definition str_int (n : Z) : string := NilZero.string_of_int (Z.to_int n).

(** Characters that [str.strip] removes (ASCII range). *)
Definition is_space (c : ascii) : bool :=
  let n := nat_of_ascii c in
  (((9 <=? n) && (n <=? 13)) || ((28 <=? n) && (n <=? 32)))%nat.

Fixpoint lstrip (s : string) : string :=
  match s with
  | EmptyString => EmptyString
  | String c s' => if is_space c then lstrip s' else s
  end.

Fixpoint rstrip (s : string) : string :=
  match s with
  | EmptyString => EmptyString
  | String c s' =>
      match rstrip s' with
      | EmptyString => if is_space c then EmptyString else String c EmptyString
      | t => String c t
      end
  end.

(** [s.strip()]. *)
Definition strip (s : string) : string := rstrip (lstrip s).

(** [s.split("\n")]. *)
Fixpoint split_lines (s : string) : list string :=
  match s with
  | EmptyString => [EmptyString]
  | String c s' =>
      if Ascii.eqb c "010"%char then EmptyString :: split_lines s'
      else match split_lines s' with
           | h :: t => String c h :: t
           | [] => [String c EmptyString]
           end
  end.

Definition digit_of (c : ascii) : option Z :=
  let n := nat_of_ascii c in
  if ((48 <=? n) && (n <=? 57))%nat then Some (Z.of_nat (n - 48)) else None.

Definition starts_with_digit (s : string) : bool :=
  match s with
  | String c _ => match digit_of c with Some _ => true | None => false end
  | EmptyString => false
  end.

(** Decimal digits, a single underscore allowed between two digits. *)
Fixpoint digits (acc : Z) (s : string) : option Z :=
  match s with
  | EmptyString => Some acc
  | String c s' =>
      match digit_of c with
      | Some d => digits (10 * acc + d) s'
      | None =>
          if Ascii.eqb c "_"%char && starts_with_digit s'
          then digits acc s'
          else None
      end
  end.

(** The number of decimal digits of a string; [int] refuses a numeral
    of more than [max_str_digits] digits (the default limit of the
    interpreter). *)
Fixpoint digit_count (s : string) : nat :=
  match s with
  | EmptyString => O
  | String c s' =>
      match digit_of c with
      | Some _ => S (digit_count s')
      | None => digit_count s'
      end
  end.

Definition max_str_digits : nat := 4300.

(** What [int] makes of a numeral [s] that denotes [n], under a limit of
    [m] digits. *)
Definition within (m : nat) (s : string) (n : Z) : option Z :=
  if (digit_count s <=? m)%nat then Some n else None.

Definition unsigned_int (s : string) : option Z :=
  if starts_with_digit s && (digit_count s <=? max_str_digits)%nat
  then digits 0 s
  else None.

(** Characters that [int] skips around a numeral: those of the C locale's
    [isspace], fewer than [str.strip] removes. *)
Definition is_c_space (c : ascii) : bool :=
  let n := nat_of_ascii c in
  (((9 <=? n) && (n <=? 13)) || (n =? 32))%nat.

Fixpoint skip_left (s : string) : string :=
  match s with
  | EmptyString => EmptyString
  | String c s' => if is_c_space c then skip_left s' else s
  end.

Fixpoint skip_right (s : string) : string :=
  match s with
  | EmptyString => EmptyString
  | String c s' =>
      match skip_right s' with
      | EmptyString =>
          if is_c_space c then EmptyString else String c EmptyString
      | t => String c t
      end
  end.

(** [int(s)] for a string: surrounding white space, an optional sign,
    decimal digits.  [None] stands for [ValueError]. *)
Definition int_of_str (s : string) : option Z :=
  match skip_right (skip_left s) with
  | String "-"%char t => option_map Z.opp (unsigned_int t)
  | String "+"%char t => unsigned_int t
  | t => unsigned_int t
  end.

(** JSON-like values: what the handlers return and what travels in the
    [extra] bag of an invoice. *)
#[local] Set Warnings "-register-all".
Inductive value : Type :=
| VNone
| VInt (n : Z)
| VStr (s : string)
| VList (l : list value)
| VDict (d : list (string * value)).

Definition dict := list (string * value).

Fixpoint dict_get (k : string) (d : dict) : option value :=
  match d with
  | [] => None
  | (k', v) :: d' => if String.eqb k k' then Some v else dict_get k d'
  end.

(** [d[k] = v]: replaces the value of an existing key in place, appends a
    new key. *)
Fixpoint dict_set (k : string) (v : value) (d : dict) : dict :=
  match d with
  | [] => [(k, v)]
  | (k', v') :: d' =>
      if String.eqb k k' then (k, v) :: d' else (k', v') :: dict_set k v d'
  end.

Definition opt_str (s : option string) : value :=
  match s with
  | Some t => VStr t
  | None => VNone
  end.

(** Exceptions raised by the two modules or through them. *)
Inductive exn : Type :=
| HTTPException (status_code : Z) (detail : string)
| Exception (msg : string)
| AssertionError (msg : string)
| ValueError
| TypeError
| OperationalError
| OSError
| OverflowError
| FormatError
| CollaboratorError.

Definition NOT_FOUND : Z := 404.

(* ------------------------------------------------------------------ *)
(** * Python numbers *)
(* ------------------------------------------------------------------ *)

(** The integer nearest to m / 2^d, ties to the even one, and the integer
    part of m / 2^d. *)
Definition round_half_even (m : Z) (d : positive) : Z :=
  let q := m / 2 ^ Z.pos d in
  let r := m mod 2 ^ Z.pos d in
  match (2 * r ?= 2 ^ Z.pos d)%Z with
  | Lt => q
  | Gt => q + 1
  | Eq => if Z.even q then q else q + 1
  end.

Definition integer_part (m : Z) (d : positive) : Z := m / 2 ^ Z.pos d.

(** [int(x)] and [round(x)] on the exact value of a float, which is
    (-1)^s * m * 2^e: [ValueError] for a NaN, [OverflowError] for an
    infinity. *)
Definition int_of_sf (x : spec_float) : exn + Z :=
  match x with
  | S754_nan => inl ValueError
  | S754_infinity _ => inl OverflowError
  | S754_zero _ => inr 0
  | S754_finite s m e =>
      let v := match e with
               | Z.neg d => integer_part (Z.pos m) d
               | _ => Z.pos m * 2 ^ e
               end in
      inr (if s then - v else v)
  end.

Definition round_sf (x : spec_float) : exn + Z :=
  match x with
  | S754_nan => inl ValueError
  | S754_infinity _ => inl OverflowError
  | S754_zero _ => inr 0
  | S754_finite s m e =>
      let v := match e with
               | Z.neg d => round_half_even (Z.pos m) d
               | _ => Z.pos m * 2 ^ e
               end in
      inr (if s then - v else v)
  end.

(** [int(x)]: truncation towards zero. *)
Definition int_of_num (x : float) : exn + Z := int_of_sf (Prim2SF x).

(** [round(x)]: to the nearest integer, ties to the even one. *)
Definition round (x : float) : exn + Z := round_sf (Prim2SF x).

(** [n < x] and [n > x] for an [int] against a [float]: the comparison of
    the exact values; both are false against a NaN. *)
Definition lt_sf (n : Z) (x : spec_float) : bool :=
  match x with
  | S754_nan => false
  | S754_infinity s => negb s
  | S754_zero _ => (n <? 0)%Z
  | S754_finite s m e =>
      let v := if s then Z.neg m else Z.pos m in
      match e with
      | Z.neg d => (n * 2 ^ Z.pos d <? v)%Z
      | _ => (n <? v * 2 ^ e)%Z
      end
  end.

Definition gt_sf (n : Z) (x : spec_float) : bool :=
  match x with
  | S754_nan => false
  | S754_infinity s => s
  | S754_zero _ => (0 <? n)%Z
  | S754_finite s m e =>
      let v := if s then Z.neg m else Z.pos m in
      match e with
      | Z.neg d => (v <? n * 2 ^ Z.pos d)%Z
      | _ => (v * 2 ^ e <? n)%Z
      end
  end.

Definition int_lt_num (n : Z) (x : float) : bool := lt_sf n (Prim2SF x).

Definition int_gt_num (n : Z) (x : float) : bool := gt_sf n (Prim2SF x).

(** [a / b] for two [int]s: the float nearest to the exact quotient. *)
Definition sf_of_int (n : Z) : spec_float :=
  match n with
  | 0 => S754_zero false
  | Z.pos p => S754_finite false p 0
  | Z.neg p => S754_finite true p 0
  end.

Definition true_div (a b : Z) : spec_float :=
  SFdiv prec emax (sf_of_int a) (sf_of_int b).

(** [int(amount / 1000)]: the satoshis of an amount in millisatoshi.  The
    division raises [OverflowError] when the quotient is beyond the
    floats. *)
Definition sats_of_msat (amount_msat : Z) : exn + Z :=
  int_of_sf (true_div amount_msat 1000).

(* ------------------------------------------------------------------ *)
(** * Data model *)
(* ------------------------------------------------------------------ *)

Module PayLink.
  (** Modelled from the spec: the class [PayLink] is declared in
      [models.py], which is not among the sources.  The columns are those of
      the INSERT statement of [create_pay_link]; their types follow the
      data model of the specification (amounts as floats, counters and
      [comment_chars] as integers, optional text for the rest). *)
Record t : Type := Build {
    id : string;
    wallet : string;
    description : string;
    min : float;
    max : float;
    served_meta : Z;
    served_pr : Z;
    webhook_url : option string;
    webhook_headers : option string;
    webhook_body : option string;
    success_text : option string;
    success_url : option string;
    comment_chars : Z;
    currency : option string;
    fiat_base_multiplier : Z;
    username : option string;
    zaps : option bool
  }.

Definition add_served_meta (d : Z) (r : t) : t :=
    Build (id r) (wallet r) (description r) (min r) (max r)
      (served_meta r + d) (served_pr r)
      (webhook_url r) (webhook_headers r) (webhook_body r)
      (success_text r) (success_url r) (comment_chars r) (currency r)
      (fiat_base_multiplier r) (username r) (zaps r).

Definition add_served_pr (d : Z) (r : t) : t :=
    Build (id r) (wallet r) (description r) (min r) (max r)
      (served_meta r) (served_pr r + d)
      (webhook_url r) (webhook_headers r) (webhook_body r)
      (success_text r) (success_url r) (comment_chars r) (currency r)
      (fiat_base_multiplier r) (username r) (zaps r).
End PayLink.

Module CreatePayLinkData.
  (** Modelled from the spec: [CreatePayLinkData] is declared in
      [models.py]; the fields are the ones [create_pay_link] reads. *)
Record t : Type := Build {
    description : string;
    min : float;
    max : float;
    webhook_url : option string;
    webhook_headers : option string;
    webhook_body : option string;
    success_text : option string;
    success_url : option string;
    comment_chars : Z;
    currency : option string;
    fiat_base_multiplier : Z;
    username : option string;
    zaps : option bool
  }.
End CreatePayLinkData.

(** Modelled from the spec: the settings row of [models.py] holds the
    private key only; the extended settings add the relay list. *)
Record LnurlpSettings : Type := {
  nostr_private_key : string
}.

Record ExtendedLnurlpSettings : Type := {
  ext_nostr_private_key : string;
  lnbits_nostr2http_relays : list string
}.

(** The keyword arguments of [update_pay_link]: a dictionary from column
    names to new values, one optional entry per column. *)
Module Update.
Record t : Type := Build {
    wallet : option string;
    description : option string;
    min : option float;
    max : option float;
    served_meta : option Z;
    served_pr : option Z;
    webhook_url : option (option string);
    webhook_headers : option (option string);
    webhook_body : option (option string);
    success_text : option (option string);
    success_url : option (option string);
    comment_chars : option Z;
    currency : option (option string);
    fiat_base_multiplier : option Z;
    username : option (option string);
    zaps : option (option bool)
  }.

Definition empty : t :=
    Build None None None None None None None None None None None None None
      None None None.

Definition is_some {A} (o : option A) : bool :=
    match o with Some _ => true | None => false end.

  (** Number of entries: the SET clause is empty when it is zero. *)
Definition is_empty (k : t) : bool :=
    negb (is_some (wallet k) || is_some (description k) || is_some (min k)
          || is_some (max k) || is_some (served_meta k)
          || is_some (served_pr k) || is_some (webhook_url k)
          || is_some (webhook_headers k) || is_some (webhook_body k)
          || is_some (success_text k) || is_some (success_url k)
          || is_some (comment_chars k) || is_some (currency k)
          || is_some (fiat_base_multiplier k) || is_some (username k)
          || is_some (zaps k)).

Definition pick {A} (new : option A) (old : A) : A :=
    match new with Some v => v | None => old end.

  (** [SET column = ?] for every entry. *)
Definition apply (k : t) (r : PayLink.t) : PayLink.t :=
    PayLink.Build (PayLink.id r)
      (pick (wallet k) (PayLink.wallet r))
      (pick (description k) (PayLink.description r))
      (pick (min k) (PayLink.min r))
      (pick (max k) (PayLink.max r))
      (pick (served_meta k) (PayLink.served_meta r))
      (pick (served_pr k) (PayLink.served_pr r))
      (pick (webhook_url k) (PayLink.webhook_url r))
      (pick (webhook_headers k) (PayLink.webhook_headers r))
      (pick (webhook_body k) (PayLink.webhook_body r))
      (pick (success_text k) (PayLink.success_text r))
      (pick (success_url k) (PayLink.success_url r))
      (pick (comment_chars k) (PayLink.comment_chars r))
      (pick (currency k) (PayLink.currency r))
      (pick (fiat_base_multiplier k) (PayLink.fiat_base_multiplier r))
      (pick (username k) (PayLink.username r))
      (pick (zaps k) (PayLink.zaps r)).
End Update.

(** The keyword arguments of [increment_pay_link]: deltas for the two
    counters. *)
Module Increment.
Record t : Type := Build {
    served_meta : option Z;
    served_pr : option Z
  }.

Definition is_empty (k : t) : bool :=
    match served_meta k, served_pr k with
    | None, None => true
    | _, _ => false
    end.

  (** [SET counter = counter + ?] for every entry. *)
Definition apply (k : t) (r : PayLink.t) : PayLink.t :=
    let r1 := match served_meta k with
              | Some d => PayLink.add_served_meta d r
              | None => r
              end in
    match served_pr k with
    | Some d => PayLink.add_served_pr d r1
    | None => r1
    end.
End Increment.

(** One call of the payment service: the arguments of [create_invoice]. *)
Record Invoice : Type := {
  wallet_id : string;
  amount : Z;
  memo : string;
  unhashed_description : string;
  extra : dict
}.

(** A request: its URL and its query parameters. *)
Record Request : Type := {
  url : string;
  query_params : list (string * string)
}.

(** [request.query_params.get(k)]: the value of the last occurrence of the
    key. *)
Fixpoint query_get (k : string) (q : list (string * string)) : option string :=
  match q with
  | [] => None
  | (k', v) :: q' =>
      match query_get k q' with
      | Some v' => Some v'
      | None => if String.eqb k k' then Some v else None
      end
  end.

(* ------------------------------------------------------------------ *)
(** * The world and the monad of the handlers *)
(* ------------------------------------------------------------------ *)

Record World : Type := {
  pay_links : list PayLink.t;        (* table lnurlp.pay_links *)
  settings : list LnurlpSettings;    (* table lnurlp.settings *)
  files : list (string * string);    (* path and content of the files *)
  invoices : list Invoice            (* invoices requested so far *)
}.

Definition with_pay_links (l : list PayLink.t) (w : World) : World :=
  {| pay_links := l; settings := settings w; files := files w;
     invoices := invoices w |}.

Definition with_settings (l : list LnurlpSettings) (w : World) : World :=
  {| pay_links := pay_links w; settings := l; files := files w;
     invoices := invoices w |}.

Definition with_files (l : list (string * string)) (w : World) : World :=
  {| pay_links := pay_links w; settings := settings w; files := l;
     invoices := invoices w |}.

Definition with_invoices (l : list Invoice) (w : World) : World :=
  {| pay_links := pay_links w; settings := settings w; files := files w;
     invoices := l |}.

Definition M (A : Type) : Type := World -> (exn + A) * World.

Definition ret {A} (a : A) : M A := fun w => (inr a, w).

Definition raise {A} (e : exn) : M A := fun w => (inl e, w).

Definition bind {A B} (m : M A) (f : A -> M B) : M B :=
  fun w =>
    match m w with
    | (inl e, w') => (inl e, w')
    | (inr a, w') => f a w'
    end.

Declare Scope py_scope.
Delimit Scope py_scope with py.
Notation "x <- c ;; k" := (bind c (fun x => k))
  (at level 61, c at next level, right associativity) : py_scope.
Notation "c ;; k" := (bind c (fun _ => k))
  (at level 61, right associativity) : py_scope.
Local Open Scope py_scope.

(** [assert c, msg]. *)
Definition py_assert (c : bool) (msg : string) : M unit :=
  if c then ret tt else raise (AssertionError msg).

(** An optional result of a collaborator; its failure propagates. *)
Definition call {A} (r : option A) : M A :=
  match r with
  | Some a => ret a
  | None => raise CollaboratorError
  end.

(** A computation that returns or raises and leaves the world alone. *)
Definition lift {A} (r : exn + A) : M A :=
  match r with
  | inr a => ret a
  | inl e => raise e
  end.

(** The collaborators of the two modules. *)
Class Collaborators : Type := {
  (** [lnbits.utils.exchange_rates.get_fiat_rate_satoshis]. *)
  get_fiat_rate_satoshis : string -> option float;
  (** [lnbits.core.services.create_invoice]: payment hash and payment
      request. *)
  create_invoice : Invoice -> option (string * string);
  (** [services.check_lnaddress_format]: [false] when it raises. *)
  check_lnaddress_format : string -> bool;
  (** [request.url_for(name, link_id=...)]. *)
  url_for : Request -> string -> string -> string;
  (** [urlparse(url).netloc]. *)
  netloc : string -> string;
  (** Modelled from the spec: the metadata string of a link ([models.py]),
      with the domain when the caller has one. *)
  lnurlpay_metadata : PayLink.t -> option string -> string;
  (** Modelled from the spec: the success action of a link ([models.py]),
      present when the link defines a success text or url. *)
  success_action : PayLink.t -> string -> option value;
  (** [str(x)] for a float. *)
  str_num : float -> string;
  (** [lnbits_settings.lnbits_nostr2http_relays_filepath]. *)
  lnbits_nostr2http_relays_filepath : option string
}.

(* ------------------------------------------------------------------ *)
(** * [crud.py] *)
(* ------------------------------------------------------------------ *)

(** The two WHERE clauses on the pay-link table.  A NULL username matches
    no parameter. *)
Definition id_is (link_id : string) (r : PayLink.t) : bool :=
  String.eqb (PayLink.id r) link_id.

Definition username_is (u : string) (r : PayLink.t) : bool :=
  match PayLink.username r with
  | Some u' => String.eqb u' u
  | None => false
  end.

(** [db.fetchone], [db.fetchall] and [db.execute] on the pay-link table:
    the first matching row, all matching rows in table order, an UPDATE of
    every matching row, an INSERT at the end of the table. *)
Definition fetchone_pay_links (p : PayLink.t -> bool) : M (option PayLink.t) :=
  fun w => (inr (find p (pay_links w)), w).

Definition fetchall_pay_links (p : PayLink.t -> bool) : M (list PayLink.t) :=
  fun w => (inr (filter p (pay_links w)), w).

Definition update_rows (p : PayLink.t -> bool) (f : PayLink.t -> PayLink.t)
    (rows : list PayLink.t) : list PayLink.t :=
  map (fun r => if p r then f r else r) rows.

Definition execute_update_pay_links (p : PayLink.t -> bool)
    (f : PayLink.t -> PayLink.t) : M unit :=
  fun w => (inr tt, with_pay_links (update_rows p f (pay_links w)) w).

Definition execute_insert_pay_links (r : PayLink.t) : M bool :=
  fun w => (inr true, with_pay_links (pay_links w ++ [r]) w).

(** The settings table and the file system. *)
Definition fetchone_settings : M (option LnurlpSettings) :=
  fun w => (inr (hd_error (settings w)), w).

Definition execute_insert_settings (s : LnurlpSettings) : M unit :=
  fun w => (inr tt, with_settings (settings w ++ [s]) w).

Definition file_is (path : string) (f : string * string) : bool :=
  String.eqb (fst f) path.

Definition path_exists (path : string) : M bool :=
  fun w => (inr (existsb (file_is path) (files w)), w).

Definition read_file (path : string) : M string :=
  fun w =>
    match find (file_is path) (files w) with
    | Some f => (inr (snd f), w)
    | None => (inl OSError, w)
    end.

(** The lines of the relay file, as the list comprehension of
    [get_or_create_lnurlp_settings] builds them. *)
Definition relay_lines (content : string) : list string :=
  map strip (split_lines content).

Section Crud.
Context {C : Collaborators}.

(** [get_or_create_lnurlp_settings].  The argument is the value that
    [PrivateKey().hex()] yields when it is called.  The lines read from
    the relay file are bound to [lines], a name the rest of the function
    never reads; the list passed to the result is the one bound before the
    file is opened. *)
Definition get_or_create_lnurlp_settings (generated_key : string)
    : M ExtendedLnurlpSettings :=
  row <- fetchone_settings ;;
  let relays : list string := [] in
  found <- (if truthy lnbits_nostr2http_relays_filepath
            then path_exists (or_empty lnbits_nostr2http_relays_filepath)
            else ret false) ;;
  (if found
   then content <- read_file (or_empty lnbits_nostr2http_relays_filepath) ;;
        let lines := relay_lines content in
        ret tt
   else ret tt) ;;
  match row with
  | Some r =>
      ret {| ext_nostr_private_key := nostr_private_key r;
             lnbits_nostr2http_relays := relays |}
  | None =>
      let key := generated_key in
      let s := {| nostr_private_key := key |} in
      execute_insert_settings s ;;
      ret {| ext_nostr_private_key := key;
             lnbits_nostr2http_relays := relays |}
  end.

Definition username_taken : exn :=
  Exception "Username already exists. Try a different one.".

(** [check_lnaddress_not_exists]. *)
Definition check_lnaddress_not_exists (u : string) : M bool :=
  row <- fetchall_pay_links (username_is u) ;;
  match row with
  | _ :: _ => raise username_taken
  | [] => ret true
  end.

(** The call of [services.check_lnaddress_format]. *)
Definition check_format (u : string) : M unit :=
  if check_lnaddress_format u then ret tt else raise FormatError.

(** [get_address_data]. *)
Definition get_address_data (u : string) : M (option PayLink.t) :=
  fetchone_pay_links (username_is u).

(** [get_pay_link]. *)
Definition get_pay_link (link_id : string) : M (option PayLink.t) :=
  fetchone_pay_links (id_is link_id).

(** The row that the INSERT of [create_pay_link] writes. *)
Definition new_row (link_id wallet_id : string) (data : CreatePayLinkData.t)
    : PayLink.t :=
  PayLink.Build link_id wallet_id
    (CreatePayLinkData.description data)
    (CreatePayLinkData.min data)
    (CreatePayLinkData.max data)
    0 0
    (CreatePayLinkData.webhook_url data)
    (CreatePayLinkData.webhook_headers data)
    (CreatePayLinkData.webhook_body data)
    (CreatePayLinkData.success_text data)
    (CreatePayLinkData.success_url data)
    (CreatePayLinkData.comment_chars data)
    (CreatePayLinkData.currency data)
    (CreatePayLinkData.fiat_base_multiplier data)
    (CreatePayLinkData.username data)
    (CreatePayLinkData.zaps data).

(** [create_pay_link].  The last argument is the value that
    [urlsafe_short_hash()] yields when it is called. *)
Definition create_pay_link (data : CreatePayLinkData.t) (wallet_id : string)
    (short_hash : string) : M PayLink.t :=
  (if truthy (CreatePayLinkData.username data)
   then check_format (or_empty (CreatePayLinkData.username data)) ;;
        check_lnaddress_not_exists (or_empty (CreatePayLinkData.username data)) ;;
        ret tt
   else ret tt) ;;
  let link_id := substring 0 6 short_hash in
  result <- execute_insert_pay_links (new_row link_id wallet_id data) ;;
  py_assert result "" ;;
  link <- get_pay_link link_id ;;
  match link with
  | Some l => ret l
  | None => raise (AssertionError "Newly created link couldn't be retrieved")
  end.

(** [update_pay_link].  An empty dictionary gives an empty SET clause,
    which the database refuses. *)
Definition update_pay_link (link_id : string) (kwargs : Update.t)
    : M (option PayLink.t) :=
  (match Update.username kwargs with
   | Some u =>
       if len (or_empty u) >? 0
       then check_format (or_empty u) ;;
            check_lnaddress_not_exists (or_empty u) ;;
            ret tt
       else ret tt
   | None => ret tt
   end) ;;
  (if Update.is_empty kwargs then raise OperationalError
   else execute_update_pay_links (id_is link_id) (Update.apply kwargs)) ;;
  fetchone_pay_links (id_is link_id).

(** [increment_pay_link]. *)
Definition increment_pay_link (link_id : string) (kwargs : Increment.t)
    : M (option PayLink.t) :=
  (if Increment.is_empty kwargs then raise OperationalError
   else execute_update_pay_links (id_is link_id) (Increment.apply kwargs)) ;;
  fetchone_pay_links (id_is link_id).

End Crud.

(* ------------------------------------------------------------------ *)
(** * [lnurl.py] *)
(* ------------------------------------------------------------------ *)

(** Modelled from the spec: the three response classes come from the
    [lnurl] package; [.dict()] gives the payload shapes of the interface
    section of the specification. *)
Definition LnurlErrorResponse (reason : string) : dict :=
  [("status", VStr "ERROR"); ("reason", VStr reason)].

Definition LnurlPayResponse (callback : string) (min_sendable max_sendable : Z)
    (metadata : string) : dict :=
  [("tag", VStr "payRequest"); ("callback", VStr callback);
   ("minSendable", VInt min_sendable); ("maxSendable", VInt max_sendable);
   ("metadata", VStr metadata)].

Definition LnurlPayActionResponse (pr : string) (action : option value) : dict :=
  match action with
  | Some a => [("pr", VStr pr); ("successAction", a); ("routes", VList [])]
  | None => [("pr", VStr pr); ("routes", VList [])]
  end.

(** A payload of the protocol's error channel. *)
Definition is_error_payload (d : dict) : bool :=
  match dict_get "status" d, dict_get "reason" d with
  | Some (VStr "ERROR"), Some (VStr _) => true
  | _, _ => false
  end.

(** The two reasons of the amount check and the one of the comment
    check. *)
Definition reason_smaller {C : Collaborators} (a : Z) (lo : float) : string :=
  "Amount " ++ str_int a ++ " is smaller than minimum " ++ str_num lo ++ ".".

Definition reason_greater {C : Collaborators} (a : Z) (hi : float) : string :=
  "Amount " ++ str_int a ++ " is greater than maximum " ++ str_num hi ++ ".".

Definition reason_comment (n allowed : Z) : string :=
  "Got a comment with " ++ str_int n
    ++ " characters, but can only accept " ++ str_int allowed.

Section Lnurl.
Context {C : Collaborators}.

(** The call of the payment service: the request is recorded, then the
    service answers or fails. *)
Definition request_invoice (inv : Invoice) : M (string * string) :=
  fun w =>
    let w' := with_invoices (invoices w ++ [inv]) w in
    match create_invoice inv with
    | Some r => (inr r, w')
    | None => (inl CollaboratorError, w')
    end.

(** [await get_fiat_rate_satoshis(link.currency) if link.currency else 1];
    [None] when the oracle fails. *)
Definition fiat_rate (link : PayLink.t) : option float :=
  if truthy (PayLink.currency link)
  then get_fiat_rate_satoshis (or_empty (PayLink.currency link))
  else Some 1%float.

(** [lnurl_response], the Pay Request of the address form
    ([.well-known/lnurlp]). *)
Definition lnurl_response (username domain : string) (request : Request)
    : M dict :=
  address_data <- get_address_data username ;;
  match address_data with
  | None => ret [("status", VStr "ERROR"); ("reason", VStr "Address not found.")]
  | Some a =>
      min_sendable <- lift (int_of_num (PayLink.min a * 1000)%float) ;;
      max_sendable <- lift (int_of_num (PayLink.max a * 1000)%float) ;;
      let resp :=
        [("tag", VStr "payRequest");
         ("callback",
          VStr (url_for request "lnurlp.api_lnurl_callback" (PayLink.id a)));
         ("metadata", VStr (lnurlpay_metadata a (Some domain)));
         ("minSendable", VInt min_sendable);
         ("maxSendable", VInt max_sendable)] in
      ret resp
  end.

(** [api_lnurl_response], the Pay Request of the direct-id form. *)
Definition api_lnurl_response (request : Request) (link_id : string) : M dict :=
  link <- increment_pay_link link_id (Increment.Build (Some 1) None) ;;
  match link with
  | None => raise (HTTPException NOT_FOUND "Pay link does not exist.")
  | Some link =>
      rate <- call (fiat_rate link) ;;
      min_sat <- lift (round (PayLink.min link * rate)%float) ;;
      max_sat <- lift (round (PayLink.max link * rate)%float) ;;
      let resp :=
        LnurlPayResponse
          (url_for request "lnurlp.api_lnurl_callback" (PayLink.id link))
          (min_sat * 1000)
          (max_sat * 1000)
          (lnurlpay_metadata link None) in
      let params := resp in
      if PayLink.comment_chars link >? 0
      then ret (dict_set "commentAllowed" (VInt (PayLink.comment_chars link))
                  params)
      else ret params
  end.

(** The bounds of the callback in millisatoshi (lines 119 to 127). *)
Definition callback_bounds (link : PayLink.t) (rate : float) : float * float :=
  if truthy (PayLink.currency link)
  then ((rate * 995 * PayLink.min link)%float,
        (rate * 1010 * PayLink.max link)%float)
  else ((PayLink.min link * 1000)%float, (PayLink.max link * 1000)%float).

(** [int(request.query_params.get("amount") or 0)]; [None] stands for the
    [ValueError] of [int]. *)
Definition amount_received (request : Request) : option Z :=
  match query_get "amount" (query_params request) with
  | None | Some EmptyString => Some 0
  | Some s => int_of_str s
  end.

Definition amount_of (request : Request) : M Z :=
  match amount_received request with
  | Some n => ret n
  | None => raise ValueError
  end.

(** The arguments of the [create_invoice] call of the callback (lines 146
    to 157), once [int(amount_received / 1000)] has given the satoshis. *)
Definition callback_create_invoice (request : Request) (link : PayLink.t)
    (sats : Z) : Invoice :=
  {| wallet_id := PayLink.wallet link;
     amount := sats;
     memo := PayLink.description link;
     unhashed_description := lnurlpay_metadata link None;
     extra := [("tag", VStr "lnurlp");
               ("link", VStr (PayLink.id link));
               ("comment",
                opt_str (query_get "comment" (query_params request)));
               ("extra",
                opt_str (query_get "amount" (query_params request)))] |}.

(** The callback once the amount is accepted: the comment check and the
    invoice (lines 140 to 167). *)
Definition callback_invoice (request : Request) (link : PayLink.t)
    (amount : Z) : M dict :=
  let comment := query_get "comment" (query_params request) in
  if len (or_empty comment) >? PayLink.comment_chars link
  then
    match comment with
    | Some c =>
        ret (LnurlErrorResponse
               (reason_comment (len c) (PayLink.comment_chars link)))
    | None => raise TypeError
    end
  else
    sats <- lift (sats_of_msat amount) ;;
    r <- request_invoice (callback_create_invoice request link sats) ;;
    let (payment_hash, payment_request) := r in
    ret (LnurlPayActionResponse payment_request
           (success_action link payment_hash)).

(** [api_lnurl_callback], the handler of lines 113 to 167. *)
Definition api_lnurl_callback (request : Request) (link_id : string) : M dict :=
  link <- increment_pay_link link_id (Increment.Build None (Some 1)) ;;
  match link with
  | None => raise (HTTPException NOT_FOUND "Pay link does not exist.")
  | Some link =>
      rate <- call (fiat_rate link) ;;
      let (min, max) := callback_bounds link rate in
      amount <- amount_of request ;;
      if int_lt_num amount min
      then ret (LnurlErrorResponse (reason_smaller amount min))
      else if int_gt_num amount max
      then ret (LnurlErrorResponse (reason_greater amount max))
      else callback_invoice request link amount
  end.

End Lnurl.

(** The older handler that [lnurl.py] defines under the same name and
    route at line 43, written for the address form: no counter, no bounds,
    and an error payload for an unknown link. *)
Module LnAddress.
Section Handler.
Context {C : Collaborators}.

Definition api_lnurl_callback (request : Request) (link_id : string)
    (amount : Z) : M dict :=
  address <- get_pay_link link_id ;;
  match address with
  | None => ret (LnurlErrorResponse "Address not found")
  | Some address =>
      let domain := netloc (url request) in
      py_assert (negb (String.eqb domain "")) "" ;;
      let unhashed := lnurlpay_metadata address (Some domain) in
      sats <- lift (sats_of_msat amount) ;;
      r <- request_invoice
             {| wallet_id := PayLink.wallet address;
                amount := sats;
                memo := PayLink.description address;
                unhashed_description := unhashed;
                extra := [("tag", VStr "lnurlp");
                          ("link", VStr (PayLink.id address));
                          ("extra",
                           VDict [("tag",
                                   VStr ("Payment to "
                                         ++ str_opt (PayLink.username address)
                                         ++ "@" ++ domain))])]
             |} ;;
      let (payment_hash, payment_request) := r in
      ret (LnurlPayActionResponse payment_request
             (success_action address payment_hash))
  end.

End Handler.
End LnAddress.

(* ------------------------------------------------------------------ *)
(** * A concrete setting for the examples *)
(* ------------------------------------------------------------------ *)

Module Demo.

(** Whole numbers are printed as Python prints them below 10^16, with
    [.0]; the other floats by their mantissa and exponent. *)
Definition show_num (x : float) : string :=
  match Prim2SF x with
  | S754_nan => "nan"
  | S754_infinity s => if s then "-inf" else "inf"
  | S754_zero s => if s then "-0.0" else "0.0"
  | S754_finite s m e =>
      let v := if s then Z.neg m else Z.pos m in
      match e with
      | Z.neg d =>
          if (Z.pos m mod 2 ^ Z.pos d =? 0)%Z
          then str_int (v / 2 ^ Z.pos d) ++ ".0"
          else str_int v ++ "*2**" ++ str_int e
      | _ => str_int (v * 2 ^ e) ++ ".0"
      end
  end.

Definition format_ok (u : string) : bool :=
  ((3 <=? String.length u) && (String.length u <=? 15))%nat.

(** One bitcoin at 2000 USD: 50000 satoshis for a dollar. *)
Definition env : Collaborators := {|
  get_fiat_rate_satoshis :=
    fun c => if String.eqb c "USD" then Some 50000%float else None;
  create_invoice := fun inv => Some ("hash-" ++ memo inv, "lnbc-" ++ memo inv);
  check_lnaddress_format := format_ok;
  url_for := fun _ _ link_id => "https://pay.example/api/v1/lnurl/cb/" ++ link_id;
  netloc := fun _ => "pay.example";
  lnurlpay_metadata := fun l _ => PayLink.description l;
  success_action := fun l _ => option_map VStr (PayLink.success_text l);
  str_num := show_num;
  lnbits_nostr2http_relays_filepath := Some "/data/relays.txt"
|}.

(** A link in satoshis and a link in dollars. *)
Definition tips : PayLink.t :=
  PayLink.Build "abc123" "wallet1" "tips" 10%float 1000%float 0 0
    None None None None None 0 None 100 (Some "bob") None.

Definition coffee : PayLink.t :=
  PayLink.Build "usd001" "wallet1" "coffee" 1%float 5%float 0 0
    None None None None None 10 (Some "USD") 100 (Some "alice") None.

(** The same collaborators at another rate of the dollar. *)
Definition env_at (rate : float) : Collaborators := {|
  get_fiat_rate_satoshis :=
    fun c => if String.eqb c "USD" then Some rate else None;
  create_invoice := fun inv => Some ("hash-" ++ memo inv, "lnbc-" ++ memo inv);
  check_lnaddress_format := format_ok;
  url_for := fun _ _ link_id => "https://pay.example/api/v1/lnurl/cb/" ++ link_id;
  netloc := fun _ => "pay.example";
  lnurlpay_metadata := fun l _ => PayLink.description l;
  success_action := fun l _ => option_map VStr (PayLink.success_text l);
  str_num := show_num;
  lnbits_nostr2http_relays_filepath := Some "/data/relays.txt"
|}.

(** Links with bounds that are not whole numbers: one cent to five
    dollars, seven cents to five dollars, and 0.01 to 2.01 satoshis. *)
Definition gum : PayLink.t :=
  PayLink.Build "usd002" "wallet1" "gum" 0.01%float 5%float 0 0
    None None None None None 0 (Some "USD") 100 (Some "carl") None.

Definition mint : PayLink.t :=
  PayLink.Build "usd003" "wallet1" "mint" 0.07%float 5%float 0 0
    None None None None None 0 (Some "USD") 100 (Some "dora") None.

Definition drop : PayLink.t :=
  PayLink.Build "sat002" "wallet1" "drop" 0.01%float 2.01%float 0 0
    None None None None None 0 None 100 (Some "elsa") None.

Definition relay_file : string :=
  "wss://relay.one" ++ String "010"%char "wss://relay.two".

Definition shop : World := {|
  pay_links := [tips; coffee];
  settings := [ {| nostr_private_key := "11aa" |} ];
  files := [("/data/relays.txt", relay_file)];
  invoices := []
|}.

(** Two creation requests: one for the address of [coffee], one for a new
    address. *)
Definition as_alice : CreatePayLinkData.t :=
  CreatePayLinkData.Build "tea" 2%float 20%float None None None None None 0
    None 100 (Some "alice") None.

Definition as_carol : CreatePayLinkData.t :=
  CreatePayLinkData.Build "tea" 2%float 20%float None None None None None 0
    None 100 (Some "carol") None.

(** The update that sends the username of [coffee] again. *)
Definition same_name : Update.t :=
  Update.Build None (Some "espresso") None None None None None None None None
    None None None None (Some (Some "alice")) None.

Definition kiosk : World := {|
  pay_links := [gum; mint; drop];
  settings := [];
  files := [];
  invoices := []
|}.

Definition get (q : list (string * string)) : Request :=
  {| url := "https://pay.example/"; query_params := q |}.

End Demo.

(** The world that [increment_pay_link] leaves. *)
Definition incremented (i : string) (k : Increment.t) (w : World) : World :=
  with_pay_links (update_rows (id_is i) (Increment.apply k) (pay_links w)) w.

(** The keyword arguments [served_meta=1] and [served_pr=1]. *)
Definition meta_1 : Increment.t := Increment.Build (Some 1) None.

Definition pr_1 : Increment.t := Increment.Build None (Some 1).

(** Two rows that agree on every column but [served_meta], resp.
    [served_pr]. *)
Definition frame_served_meta (l l' : PayLink.t) : Prop :=
  PayLink.id l' = PayLink.id l
  /\ PayLink.wallet l' = PayLink.wallet l
  /\ PayLink.description l' = PayLink.description l
  /\ PayLink.min l' = PayLink.min l
  /\ PayLink.max l' = PayLink.max l
  /\ PayLink.served_pr l' = PayLink.served_pr l
  /\ PayLink.webhook_url l' = PayLink.webhook_url l
  /\ PayLink.webhook_headers l' = PayLink.webhook_headers l
  /\ PayLink.webhook_body l' = PayLink.webhook_body l
  /\ PayLink.success_text l' = PayLink.success_text l
  /\ PayLink.success_url l' = PayLink.success_url l
  /\ PayLink.comment_chars l' = PayLink.comment_chars l
  /\ PayLink.currency l' = PayLink.currency l
  /\ PayLink.fiat_base_multiplier l' = PayLink.fiat_base_multiplier l
  /\ PayLink.username l' = PayLink.username l
  /\ PayLink.zaps l' = PayLink.zaps l.

Definition frame_served_pr (l l' : PayLink.t) : Prop :=
  PayLink.id l' = PayLink.id l
  /\ PayLink.wallet l' = PayLink.wallet l
  /\ PayLink.description l' = PayLink.description l
  /\ PayLink.min l' = PayLink.min l
  /\ PayLink.max l' = PayLink.max l
  /\ PayLink.served_meta l' = PayLink.served_meta l
  /\ PayLink.webhook_url l' = PayLink.webhook_url l
  /\ PayLink.webhook_headers l' = PayLink.webhook_headers l
  /\ PayLink.webhook_body l' = PayLink.webhook_body l
  /\ PayLink.success_text l' = PayLink.success_text l
  /\ PayLink.success_url l' = PayLink.success_url l
  /\ PayLink.comment_chars l' = PayLink.comment_chars l
  /\ PayLink.currency l' = PayLink.currency l
  /\ PayLink.fiat_base_multiplier l' = PayLink.fiat_base_multiplier l
  /\ PayLink.username l' = PayLink.username l
  /\ PayLink.zaps l' = PayLink.zaps l.

(** A row that carries the fields of a creation request, the wallet and
    the id it was created with, and the two counters at zero. *)
Definition created_from (data : CreatePayLinkData.t)
    (wallet_id link_id : string) (l : PayLink.t) : Prop :=
  PayLink.id l = link_id
  /\ PayLink.wallet l = wallet_id
  /\ PayLink.description l = CreatePayLinkData.description data
  /\ PayLink.min l = CreatePayLinkData.min data
  /\ PayLink.max l = CreatePayLinkData.max data
  /\ PayLink.served_meta l = 0
  /\ PayLink.served_pr l = 0
  /\ PayLink.webhook_url l = CreatePayLinkData.webhook_url data
  /\ PayLink.webhook_headers l = CreatePayLinkData.webhook_headers data
  /\ PayLink.webhook_body l = CreatePayLinkData.webhook_body data
  /\ PayLink.success_text l = CreatePayLinkData.success_text data
  /\ PayLink.success_url l = CreatePayLinkData.success_url data
  /\ PayLink.comment_chars l = CreatePayLinkData.comment_chars data
  /\ PayLink.currency l = CreatePayLinkData.currency data
  /\ PayLink.fiat_base_multiplier l
     = CreatePayLinkData.fiat_base_multiplier data
  /\ PayLink.username l = CreatePayLinkData.username data
  /\ PayLink.zaps l = CreatePayLinkData.zaps data.

(* ------------------------------------------------------------------ *)
(** * The rest of [crud.py] *)
(* ------------------------------------------------------------------ *)

(** [db.execute] of a DELETE on the pay-link table and on the settings
    table (the latter has no WHERE clause). *)
Definition execute_delete_pay_links (p : PayLink.t -> bool) : M unit :=
  fun w =>
    (inr tt, with_pay_links (filter (fun r => negb (p r)) (pay_links w)) w).

Definition execute_delete_settings : M unit :=
  fun w => (inr tt, with_settings [] w).

(** [db.execute] of the UPDATE of [update_lnurlp_settings]: its WHERE
    clause is empty, every row takes the new key. *)
Definition execute_update_settings (s : LnurlpSettings) : M unit :=
  fun w => (inr tt, with_settings (map (fun _ => s) (settings w)) w).

(** [os.remove(path)] and [open(path, "w")]: the latter leaves an empty
    file at the path, whether there was one or not. *)
Definition remove_file (path : string) : M unit :=
  fun w =>
    (inr tt, with_files (filter (fun f => negb (file_is path f)) (files w)) w).

Definition open_w (path : string) : M unit :=
  fun w =>
    (inr tt,
     with_files ((path, "") :: filter (fun f => negb (file_is path f)) (files w))
       w).

(** [delete_pay_link]. *)
Definition delete_pay_link (link_id : string) : M unit :=
  execute_delete_pay_links (id_is link_id).

(** [wallet IN (?, ..., ?)]. *)
Definition wallet_in (wallet_ids : list string) (r : PayLink.t) : bool :=
  existsb (String.eqb (PayLink.wallet r)) wallet_ids.

(** [ORDER BY Id], on text in the order of the characters' codes. *)
Fixpoint insert_by_id (r : PayLink.t) (rows : list PayLink.t)
    : list PayLink.t :=
  match rows with
  | [] => [r]
  | x :: rows' =>
      if String.leb (PayLink.id r) (PayLink.id x) then r :: x :: rows'
      else x :: insert_by_id r rows'
  end.

Definition order_by_id (rows : list PayLink.t) : list PayLink.t :=
  fold_right insert_by_id [] rows.

Definition id_le (a b : PayLink.t) : Prop :=
  String.leb (PayLink.id a) (PayLink.id b) = true.

(** [get_pay_links]: one wallet id ([inl]) or a list of them ([inr]).  For
    an empty list the IN clause has no member and selects no row. *)
Definition get_pay_links (wallet_ids : string + list string)
    : M (list PayLink.t) :=
  let wallet_ids :=
    match wallet_ids with
    | inl one => [one]
    | inr many => many
    end in
  fun w =>
    (inr (order_by_id (filter (wallet_in wallet_ids) (pay_links w))), w).

(** What [update_lnurlp_settings] raises: the [AttributeError] of
    [settings.lnbits_nostr2http_relays.join], a list having no [join], or
    the error of [os.makedirs]. *)
Inductive settings_exn : Type :=
| AttributeError
| MakedirsError.

Section Settings.
Context {C : Collaborators}.

(** [delete_lnurlp_settings]. *)
Definition delete_lnurlp_settings : M unit :=
  execute_delete_settings ;;
  found <- (if truthy lnbits_nostr2http_relays_filepath
            then path_exists (or_empty lnbits_nostr2http_relays_filepath)
            else ret false) ;;
  if found
  then remove_file (or_empty lnbits_nostr2http_relays_filepath)
  else ret tt.

(** [update_lnurlp_settings].  The first argument tells whether
    [os.makedirs] succeeds (the file can then be opened).  Inside the
    [with] block the argument of
    [write] is evaluated first: the relay list has no [join], so nothing is
    written to the file that [open] has just emptied, and the function
    does not reach its [return] when a path is configured. *)
Definition update_lnurlp_settings (makedirs_ok : bool)
    (s : ExtendedLnurlpSettings)
    : World -> (settings_exn + ExtendedLnurlpSettings) * World :=
  fun w =>
    let db_settings := {| nostr_private_key := ext_nostr_private_key s |} in
    let w1 := snd (execute_update_settings db_settings w) in
    if truthy lnbits_nostr2http_relays_filepath
    then
      if makedirs_ok
      then
        let w2 :=
          snd (open_w (or_empty lnbits_nostr2http_relays_filepath) w1) in
        (inl AttributeError, w2)
      else (inl MakedirsError, w1)
    else (inr s, w1).

End Settings.

(** The handlers of a list of requests, one after the other; the world
    they leave. *)
Fixpoint serve_all (handlers : list (M dict)) (w : World) : World :=
  match handlers with
  | [] => w
  | h :: rest => serve_all rest (snd (h w))
  end.

(** A request for one link: step 1 in its direct-id form, or step 2. *)
Inductive hit : Type :=
| PayRequest (request : Request)
| Callback (request : Request).

Definition handle {C : Collaborators} (link_id : string) (h : hit) : M dict :=
  match h with
  | PayRequest request => api_lnurl_response request link_id
  | Callback request => api_lnurl_callback request link_id
  end.

Fixpoint pay_requests (hits : list hit) : Z :=
  match hits with
  | [] => 0
  | PayRequest _ :: rest => 1 + pay_requests rest
  | Callback _ :: rest => pay_requests rest
  end.

Fixpoint callbacks (hits : list hit) : Z :=
  match hits with
  | [] => 0
  | PayRequest _ :: rest => callbacks rest
  | Callback _ :: rest => 1 + callbacks rest
  end.

(** The usernames in use: those of the rows whose username is neither
    NULL nor empty. *)
Definition usernames (rows : list PayLink.t) : list string :=
  flat_map (fun r => if truthy (PayLink.username r)
                     then [or_empty (PayLink.username r)] else [])
    rows.

(** No username is used twice, and every one passes the format rule. *)
Definition usernames_ok {C : Collaborators} (rows : list PayLink.t) : Prop :=
  NoDup (usernames rows)
  /\ Forall (fun u => check_lnaddress_format u = true) (usernames rows).

(** A collaborator set with no relay path configured, otherwise [env]. *)
Module Demo2.

Definition env : Collaborators := {|
  get_fiat_rate_satoshis := get_fiat_rate_satoshis (Collaborators := Demo.env);
  create_invoice := create_invoice (Collaborators := Demo.env);
  check_lnaddress_format := Demo.format_ok;
  url_for := url_for (Collaborators := Demo.env);
  netloc := netloc (Collaborators := Demo.env);
  lnurlpay_metadata := lnurlpay_metadata (Collaborators := Demo.env);
  success_action := success_action (Collaborators := Demo.env);
  str_num := Demo.show_num;
  lnbits_nostr2http_relays_filepath := None
|}.

End Demo2.

(* ------------------------------------------------------------------ *)
(** * Lookups after an UPDATE *)
(* ------------------------------------------------------------------ *)

Lemma find_update_rows (p q : PayLink.t -> bool) (f : PayLink.t -> PayLink.t)
    (rows : list PayLink.t) :
  (forall r, q (f r) = q r) ->
  find q (update_rows p f rows)
  = option_map (fun r => if p r then f r else r) (find q rows).
Proof.
  intros Hq. induction rows as [|r rows IH]; simpl; [reflexivity|].
  destruct (p r) eqn:Hp.
  - rewrite Hq. destruct (q r); simpl; [now rewrite Hp | exact IH].
  - destruct (q r); simpl; [now rewrite Hp | exact IH].
Qed.

Lemma id_is_increment (i : string) (k : Increment.t) (r : PayLink.t) :
  id_is i (Increment.apply k r) = id_is i r.
Proof. destruct k as [[m|] [p|]]; reflexivity. Qed.

Lemma username_is_increment (u : string) (k : Increment.t) (r : PayLink.t) :
  username_is u (Increment.apply k r) = username_is u r.
Proof. destruct k as [[m|] [p|]]; reflexivity. Qed.

Lemma find_id_is (i : string) (rows : list PayLink.t) (l : PayLink.t) :
  find (id_is i) rows = Some l -> PayLink.id l = i.
Proof.
  intros H. apply find_some in H. destruct H as [_ H].
  now apply String.eqb_eq in H.
Qed.

Lemma increment_pay_link_run (i : string) (k : Increment.t) (w : World) :
  Increment.is_empty k = false ->
  increment_pay_link i k w
  = (inr (option_map (Increment.apply k) (find (id_is i) (pay_links w))),
     incremented i k w).
Proof.
  intros Hk. unfold increment_pay_link, bind. rewrite Hk.
  unfold execute_update_pay_links, fetchone_pay_links, incremented. simpl.
  rewrite find_update_rows by (intros; apply id_is_increment).
  destruct (find (id_is i) (pay_links w)) as [l|] eqn:Hf; simpl; [|reflexivity].
  apply find_some in Hf. destruct Hf as [_ Hf]. now rewrite Hf.
Qed.

(** Links with another id are out of reach of the increment. *)
Lemma incremented_other (i j : string) (k : Increment.t) (w : World) :
  j <> i ->
  find (id_is j) (pay_links (incremented i k w)) = find (id_is j) (pay_links w).
Proof.
  intros Hj. unfold incremented. simpl.
  rewrite find_update_rows by (intros; apply id_is_increment).
  destruct (find (id_is j) (pay_links w)) as [l|] eqn:Hf; simpl; [|reflexivity].
  apply find_id_is in Hf. unfold id_is. rewrite Hf.
  destruct (String.eqb_spec j i); [contradiction | reflexivity].
Qed.

Lemma incremented_same (i : string) (k : Increment.t) (w : World) :
  find (id_is i) (pay_links (incremented i k w))
  = option_map (Increment.apply k) (find (id_is i) (pay_links w)).
Proof.
  unfold incremented. simpl.
  rewrite find_update_rows by (intros; apply id_is_increment).
  destruct (find (id_is i) (pay_links w)) as [l|] eqn:Hf; simpl; [|reflexivity].
  apply find_some in Hf. destruct Hf as [_ Hf]. now rewrite Hf.
Qed.

Lemma get_pay_link_find (i : string) (w w' : World) (o : option PayLink.t) :
  get_pay_link i w = (inr o, w') -> find (id_is i) (pay_links w) = o /\ w' = w.
Proof.
  unfold get_pay_link, fetchone_pay_links. intros H.
  injection H as H1 H2. now split.
Qed.

Lemma get_address_data_find (u : string) (w w' : World) (o : option PayLink.t) :
  get_address_data u w = (inr o, w') ->
  find (username_is u) (pay_links w) = o /\ w' = w.
Proof.
  unfold get_address_data, fetchone_pay_links. intros H.
  injection H as H1 H2. now split.
Qed.

Lemma update_rows_none (p : PayLink.t -> bool) (f : PayLink.t -> PayLink.t)
    (rows : list PayLink.t) :
  find p rows = None -> update_rows p f rows = rows.
Proof.
  induction rows as [|r rows IH]; simpl; [reflexivity|].
  destruct (p r); [discriminate|]. intros H. now rewrite IH.
Qed.

Lemma with_pay_links_same (w : World) : with_pay_links (pay_links w) w = w.
Proof. now destruct w. Qed.

Lemma incremented_unknown (i : string) (k : Increment.t) (w : World) :
  find (id_is i) (pay_links w) = None -> incremented i k w = w.
Proof.
  intros H. unfold incremented. rewrite update_rows_none by exact H.
  apply with_pay_links_same.
Qed.

(* ------------------------------------------------------------------ *)
(** * Unknown links *)
(* ------------------------------------------------------------------ *)

(** C6.  A request that names an unknown link: the address form of the Pay
    Request returns the payload [{status: "ERROR", reason}] as a normal
    response, while the direct-id form and the callback raise the HTTP
    exception with status 404.  None of the three changes the world. *)
Theorem unknown_link_responses {C : Collaborators} (w : World)
    (request : Request) (username domain link_id : string) :
  get_address_data username w = (inr None, w) ->
  get_pay_link link_id w = (inr None, w) ->
  lnurl_response username domain request w
  = (inr [("status", VStr "ERROR"); ("reason", VStr "Address not found.")], w)
  /\ is_error_payload
       [("status", VStr "ERROR"); ("reason", VStr "Address not found.")] = true
  /\ api_lnurl_response request link_id w
     = (inl (HTTPException 404 "Pay link does not exist."), w)
  /\ api_lnurl_callback request link_id w
     = (inl (HTTPException 404 "Pay link does not exist."), w).
Proof.
  intros Hu Hi.
  apply get_address_data_find in Hu. destruct Hu as [Hu _].
  apply get_pay_link_find in Hi. destruct Hi as [Hi _].
  split; [|split; [reflexivity|split]].
  - unfold lnurl_response, bind, get_address_data, fetchone_pay_links.
    now rewrite Hu.
  - unfold api_lnurl_response, bind.
    rewrite increment_pay_link_run by reflexivity.
    rewrite Hi, incremented_unknown by exact Hi. reflexivity.
  - unfold api_lnurl_callback, bind.
    rewrite increment_pay_link_run by reflexivity.
    rewrite Hi, incremented_unknown by exact Hi. reflexivity.
Qed.

Lemma unknown_link_responses_witness :
  lnurl_response (C := Demo.env) "carol" "pay.example" (Demo.get []) Demo.shop
  = (inr [("status", VStr "ERROR"); ("reason", VStr "Address not found.")],
     Demo.shop)
  /\ is_error_payload
       [("status", VStr "ERROR"); ("reason", VStr "Address not found.")] = true
  /\ api_lnurl_response (C := Demo.env) (Demo.get []) "zzz999" Demo.shop
     = (inl (HTTPException 404 "Pay link does not exist."), Demo.shop)
  /\ api_lnurl_callback (C := Demo.env) (Demo.get []) "zzz999" Demo.shop
     = (inl (HTTPException 404 "Pay link does not exist."), Demo.shop).
Proof.
  apply (unknown_link_responses (C := Demo.env)); reflexivity.
Defined.

(* ------------------------------------------------------------------ *)
(** * The counters *)
(* ------------------------------------------------------------------ *)

Lemma frame_add_served_meta (d : Z) (l : PayLink.t) :
  frame_served_meta l (PayLink.add_served_meta d l).
Proof. repeat split. Qed.

Lemma frame_add_served_pr (d : Z) (l : PayLink.t) :
  frame_served_pr l (PayLink.add_served_pr d l).
Proof. repeat split. Qed.

Lemma update_rows_length (p : PayLink.t -> bool) (f : PayLink.t -> PayLink.t)
    (rows : list PayLink.t) :
  length (update_rows p f rows) = length rows.
Proof. apply length_map. Qed.

(** The direct-id Pay Request leaves the world that its increment leaves,
    whatever the rate oracle answers. *)
Lemma api_lnurl_response_world {C : Collaborators} (w : World)
    (request : Request) (link_id : string) :
  snd (api_lnurl_response request link_id w) = incremented link_id meta_1 w.
Proof.
  unfold api_lnurl_response, bind.
  rewrite increment_pay_link_run by reflexivity.
  destruct (find (id_is link_id) (pay_links w)) as [l|]; simpl; [|reflexivity].
  destruct (fiat_rate _) as [rate|]; simpl; [|reflexivity].
  destruct (round _) as [e|lo]; simpl; [reflexivity|].
  destruct (round _) as [e|hi]; simpl; [reflexivity|].
  now destruct (_ >? 0).
Qed.

(** The address form reads and never writes. *)
Lemma lnurl_response_world {C : Collaborators} (w : World)
    (username domain : string) (request : Request) :
  snd (lnurl_response username domain request w) = w.
Proof.
  unfold lnurl_response, bind, get_address_data, fetchone_pay_links.
  destruct (find _ _) as [a|]; [|reflexivity].
  destruct (int_of_num _) as [e|lo]; simpl; [reflexivity|].
  now destruct (int_of_num _) as [e|hi].
Qed.

(** A Pay Request on the direct-id path, for a known link, adds exactly 1
    to the [served_meta] counter of that link and changes no other column
    of it, no other link, and nothing else in the world.  A Pay Request on
    the address path leaves the world, and so the counter, as it was. *)
Theorem pay_request_served_meta {C : Collaborators} (w : World)
    (request : Request) (link_id username domain : string) (l : PayLink.t) :
  get_pay_link link_id w = (inr (Some l), w) ->
  let w' := snd (api_lnurl_response request link_id w) in
  (exists l',
      get_pay_link link_id w' = (inr (Some l'), w')
      /\ PayLink.served_meta l' = PayLink.served_meta l + 1
      /\ frame_served_meta l l')
  /\ (forall j, j <> link_id -> fst (get_pay_link j w') = fst (get_pay_link j w))
  /\ length (pay_links w') = length (pay_links w)
  /\ settings w' = settings w
  /\ files w' = files w
  /\ invoices w' = invoices w
  /\ snd (lnurl_response username domain request w) = w.
Proof.
  intros Hl w'. subst w'. rewrite api_lnurl_response_world.
  apply get_pay_link_find in Hl. destruct Hl as [Hl _].
  split; [|split; [|split; [|repeat split]]].
  - exists (PayLink.add_served_meta 1 l).
    split; [|split; [reflexivity | apply frame_add_served_meta]].
    unfold get_pay_link, fetchone_pay_links.
    now rewrite incremented_same, Hl.
  - intros j Hj. unfold get_pay_link, fetchone_pay_links. cbn [fst].
    now rewrite incremented_other by exact Hj.
  - apply update_rows_length.
  - apply lnurl_response_world.
Qed.

Lemma pay_request_served_meta_witness :
  let w' := snd (api_lnurl_response (C := Demo.env) (Demo.get []) "usd001"
                   Demo.shop) in
  (exists l',
      get_pay_link "usd001" w' = (inr (Some l'), w')
      /\ PayLink.served_meta l' = PayLink.served_meta Demo.coffee + 1
      /\ frame_served_meta Demo.coffee l')
  /\ (forall j, j <> "usd001" ->
        fst (get_pay_link j w') = fst (get_pay_link j Demo.shop))
  /\ length (pay_links w') = length (pay_links Demo.shop)
  /\ settings w' = settings Demo.shop
  /\ files w' = files Demo.shop
  /\ invoices w' = invoices Demo.shop
  /\ snd (lnurl_response (C := Demo.env) "alice" "pay.example" (Demo.get [])
            Demo.shop) = Demo.shop.
Proof.
  apply (pay_request_served_meta (C := Demo.env)). reflexivity.
Defined.

(** C5, the code at the failing input.  The Pay Request for the address
    [alice] succeeds and the [served_meta] counter of her link is still 0:
    [lnurl_response] resolves the link with the read-only
    [get_address_data] (line 17) where its sibling [api_lnurl_response]
    resolves the same link with [increment_pay_link(served_meta=1)]
    (line 86). *)
Lemma address_path_keeps_served_meta :
  exists d w' l',
    get_address_data "alice" Demo.shop = (inr (Some Demo.coffee), Demo.shop)
    /\ lnurl_response (C := Demo.env) "alice" "pay.example" (Demo.get [])
         Demo.shop = (inr d, w')
    /\ dict_get "tag" d = Some (VStr "payRequest")
    /\ get_address_data "alice" w' = (inr (Some l'), w')
    /\ PayLink.served_meta l' = 0
    /\ PayLink.served_meta l' <> PayLink.served_meta Demo.coffee + 1.
Proof.
  exists [("tag", VStr "payRequest");
          ("callback", VStr "https://pay.example/api/v1/lnurl/cb/usd001");
          ("metadata", VStr "coffee");
          ("minSendable", VInt 1000); ("maxSendable", VInt 5000)].
  exists Demo.shop, Demo.coffee.
  repeat split; discriminate.
Qed.

(* ------------------------------------------------------------------ *)
(** * The callback *)
(* ------------------------------------------------------------------ *)

(** The callback on a known link, after its increment: the rate, the
    amount, the two bounds, then the comment and the invoice. *)
Lemma api_lnurl_callback_found {C : Collaborators} (w : World)
    (request : Request) (link_id : string) (l : PayLink.t) :
  find (id_is link_id) (pay_links w) = Some l ->
  api_lnurl_callback request link_id w
  = let l' := PayLink.add_served_pr 1 l in
    let w1 := incremented link_id pr_1 w in
    match fiat_rate l with
    | None => (inl CollaboratorError, w1)
    | Some rate =>
        match amount_received request with
        | None => (inl ValueError, w1)
        | Some a =>
            let lo := fst (callback_bounds l rate) in
            let hi := snd (callback_bounds l rate) in
            if int_lt_num a lo
            then (inr (LnurlErrorResponse (reason_smaller a lo)), w1)
            else if int_gt_num a hi
            then (inr (LnurlErrorResponse (reason_greater a hi)), w1)
            else callback_invoice request l' a w1
        end
    end.
Proof.
  intros Hl. unfold api_lnurl_callback, bind.
  rewrite increment_pay_link_run by reflexivity. rewrite Hl.
  cbn [option_map Increment.apply Increment.served_meta Increment.served_pr].
  change (fiat_rate (PayLink.add_served_pr 1 l)) with (fiat_rate l).
  unfold call, amount_of, ret, raise.
  destruct (fiat_rate l) as [rate|]; [|reflexivity].
  change (callback_bounds (PayLink.add_served_pr 1 l) rate)
    with (callback_bounds l rate).
  destruct (callback_bounds l rate) as [lo hi].
  destruct (amount_received request) as [a|]; [|reflexivity].
  cbn [fst snd]. destruct (int_lt_num a lo); [reflexivity|].
  now destruct (int_gt_num a hi).
Qed.

(** The comment check rejects, or the invoice is requested. *)
Lemma callback_invoice_rejects {C : Collaborators} (w : World)
    (request : Request) (l : PayLink.t) (a : Z) (c : string) :
  query_get "comment" (query_params request) = Some c ->
  len c > PayLink.comment_chars l ->
  callback_invoice request l a w
  = (inr (LnurlErrorResponse (reason_comment (len c) (PayLink.comment_chars l))),
     w).
Proof.
  intros Hc Hlen. unfold callback_invoice. rewrite Hc. cbn [or_empty].
  destruct (Z.gtb_spec (len c) (PayLink.comment_chars l)); [reflexivity | lia].
Qed.

Lemma callback_invoice_accepts {C : Collaborators} (w : World)
    (request : Request) (l : PayLink.t) (a : Z) :
  len (or_empty (query_get "comment" (query_params request)))
  <= PayLink.comment_chars l ->
  callback_invoice request l a w
  = match sats_of_msat a with
    | inl e => (inl e, w)
    | inr sats =>
        let inv := callback_create_invoice request l sats in
        let w' := with_invoices (invoices w ++ [inv]) w in
        match create_invoice inv with
        | Some (payment_hash, payment_request) =>
            (inr (LnurlPayActionResponse payment_request
                    (success_action l payment_hash)), w')
        | None => (inl CollaboratorError, w')
        end
    end.
Proof.
  intros Hlen. unfold callback_invoice.
  destruct (Z.gtb_spec (len (or_empty (query_get "comment" (query_params request))))
              (PayLink.comment_chars l)); [lia|].
  unfold bind, lift, request_invoice, ret, raise. cbn zeta.
  destruct (sats_of_msat a) as [e|sats]; [reflexivity|].
  destruct (create_invoice _) as [[h pr]|]; reflexivity.
Qed.

Lemma pay_action_not_error (pr : string) (action : option value) :
  is_error_payload (LnurlPayActionResponse pr action) = false.
Proof. now destruct action. Qed.

Lemma callback_invoice_pay_links {C : Collaborators} (w : World)
    (request : Request) (l : PayLink.t) (a : Z) :
  pay_links (snd (callback_invoice request l a w)) = pay_links w.
Proof.
  unfold callback_invoice, bind, lift, request_invoice, ret, raise.
  destruct (_ >? _).
  - now destruct (query_get _ _).
  - destruct (sats_of_msat a) as [e|sats]; [reflexivity|].
    now destruct (create_invoice _) as [[h pr]|].
Qed.

Lemma api_lnurl_callback_pay_links {C : Collaborators} (w : World)
    (request : Request) (link_id : string) (l : PayLink.t) :
  find (id_is link_id) (pay_links w) = Some l ->
  pay_links (snd (api_lnurl_callback request link_id w))
  = pay_links (incremented link_id pr_1 w).
Proof.
  intros Hl. rewrite (api_lnurl_callback_found _ _ _ _ Hl). cbn zeta.
  destruct (fiat_rate l) as [rate|]; [|reflexivity].
  destruct (amount_received request) as [a|]; [|reflexivity].
  destruct (int_lt_num _ _); [reflexivity|].
  destruct (int_gt_num _ _); [reflexivity|].
  apply callback_invoice_pay_links.
Qed.

(** C1 (amended).  On a known link the callback adds exactly 1 to
    [served_pr] in every case, before any validation, and changes no other
    column of the link and no other link.  A request that is answered with
    a protocol error payload requests no invoice; an invoice is requested
    only when the rate is known, the amount parses and lies within the
    bounds, and the comment is not longer than [comment_chars]. *)
Theorem callback_served_pr {C : Collaborators} (w : World) (request : Request)
    (link_id : string) (l : PayLink.t) :
  get_pay_link link_id w = (inr (Some l), w) ->
  let r := fst (api_lnurl_callback request link_id w) in
  let w' := snd (api_lnurl_callback request link_id w) in
  (exists l',
      get_pay_link link_id w' = (inr (Some l'), w')
      /\ PayLink.served_pr l' = PayLink.served_pr l + 1
      /\ frame_served_pr l l')
  /\ (forall j, j <> link_id -> fst (get_pay_link j w') = fst (get_pay_link j w))
  /\ (forall d, r = inr d -> is_error_payload d = true ->
        invoices w' = invoices w)
  /\ (invoices w' <> invoices w ->
      exists rate a,
        fiat_rate l = Some rate
        /\ amount_received request = Some a
        /\ int_lt_num a (fst (callback_bounds l rate)) = false
        /\ int_gt_num a (snd (callback_bounds l rate)) = false
        /\ len (or_empty (query_get "comment" (query_params request)))
           <= PayLink.comment_chars l).
Proof.
  intros Hl r w'. apply get_pay_link_find in Hl. destruct Hl as [Hl _].
  split; [|split].
  - exists (PayLink.add_served_pr 1 l).
    split; [|split; [reflexivity | apply frame_add_served_pr]].
    unfold get_pay_link, fetchone_pay_links. subst w'.
    rewrite (api_lnurl_callback_pay_links _ _ _ _ Hl).
    now rewrite incremented_same, Hl.
  - intros j Hj. unfold get_pay_link, fetchone_pay_links. cbn [fst]. subst w'.
    rewrite (api_lnurl_callback_pay_links _ _ _ _ Hl).
    now rewrite incremented_other by exact Hj.
  - subst r w'. rewrite (api_lnurl_callback_found _ _ _ _ Hl). cbn zeta.
    destruct (fiat_rate l) as [rate|];
      [|split; [discriminate | intros H; now contradiction H]].
    destruct (amount_received request) as [a|];
      [|split; [discriminate | intros H; now contradiction H]].
    destruct (int_lt_num a _) eqn:Hlo;
      [split; [reflexivity | intros H; now contradiction H]|].
    destruct (int_gt_num a _) eqn:Hhi;
      [split; [reflexivity | intros H; now contradiction H]|].
    unfold callback_invoice, bind, lift, request_invoice, ret, raise.
    destruct (Z.gtb_spec
                (len (or_empty (query_get "comment" (query_params request))))
                (PayLink.comment_chars (PayLink.add_served_pr 1 l)))
      as [Hc|Hc].
    + destruct (query_get "comment" (query_params request));
        (split; [reflexivity | intros H; now contradiction H]).
    + destruct (sats_of_msat a) as [e|sats];
        [split; [discriminate | intros H; now contradiction H]|].
      split.
      * destruct (create_invoice _) as [[h pr]|]; intros d Hd He;
          [|discriminate].
        injection Hd as <-. now rewrite pay_action_not_error in He.
      * intros _. exists rate, a. repeat split; assumption.
Qed.

Lemma callback_served_pr_witness :
  let request := Demo.get [("amount", "15000")] in
  let r := fst (api_lnurl_callback (C := Demo.env) request "abc123" Demo.shop) in
  let w' := snd (api_lnurl_callback (C := Demo.env) request "abc123" Demo.shop) in
  (exists l',
      get_pay_link "abc123" w' = (inr (Some l'), w')
      /\ PayLink.served_pr l' = PayLink.served_pr Demo.tips + 1
      /\ frame_served_pr Demo.tips l')
  /\ (forall j, j <> "abc123" ->
        fst (get_pay_link j w') = fst (get_pay_link j Demo.shop))
  /\ (forall d, r = inr d -> is_error_payload d = true ->
        invoices w' = invoices Demo.shop)
  /\ (invoices w' <> invoices Demo.shop ->
      exists rate a,
        fiat_rate (C := Demo.env) Demo.tips = Some rate
        /\ amount_received request = Some a
        /\ int_lt_num a (fst (callback_bounds Demo.tips rate)) = false
        /\ int_gt_num a (snd (callback_bounds Demo.tips rate)) = false
        /\ len (or_empty (query_get "comment" (query_params request)))
           <= PayLink.comment_chars Demo.tips).
Proof.
  intros request.
  apply (callback_served_pr (C := Demo.env) Demo.shop request "abc123" Demo.tips).
  reflexivity.
Defined.

(** C1, as stated, fails: an amount below the minimum is answered with the
    error payload, and [served_pr] of the link went from 0 to 1. *)
Lemma error_payload_still_counts :
  exists d w' l',
    get_pay_link "abc123" Demo.shop = (inr (Some Demo.tips), Demo.shop)
    /\ PayLink.served_pr Demo.tips = 0
    /\ api_lnurl_callback (C := Demo.env) (Demo.get [("amount", "5000")])
         "abc123" Demo.shop = (inr d, w')
    /\ d = LnurlErrorResponse "Amount 5000 is smaller than minimum 10000.0."
    /\ is_error_payload d = true
    /\ get_pay_link "abc123" w' = (inr (Some l'), w')
    /\ PayLink.served_pr l' = 1
    /\ pay_links w' <> pay_links Demo.shop.
Proof.
  exists (LnurlErrorResponse "Amount 5000 is smaller than minimum 10000.0.").
  exists (incremented "abc123" pr_1 Demo.shop).
  exists (PayLink.add_served_pr 1 Demo.tips).
  repeat split; discriminate.
Qed.

Lemma error_response_is_error (reason : string) :
  is_error_payload (LnurlErrorResponse reason) = true.
Proof. reflexivity. Qed.

Lemma fiat_rate_currency {C : Collaborators} (l : PayLink.t) (c : string) :
  PayLink.currency l = Some c -> c <> "" ->
  truthy (PayLink.currency l) = true
  /\ fiat_rate l = get_fiat_rate_satoshis c.
Proof.
  intros Hc Hne. unfold fiat_rate. rewrite Hc. cbn [or_empty truthy].
  destruct c; [contradiction | now split].
Qed.

(** C2 (amended).  The callback on a link whose currency is set: with
    [rate] the current rate in satoshis per unit of the currency, the
    bounds in millisatoshi are the floats [rate * 995 * link.min] and
    [rate * 1010 * link.max], each product rounded to binary64 in this
    order.  An amount strictly below the lower bound is answered with the
    error payload of the minimum; an amount that is neither below the lower
    bound nor above the upper bound reaches the comment check and the
    invoice. *)
Theorem callback_fiat_bounds {C : Collaborators} (w : World)
    (request : Request) (link_id : string) (l : PayLink.t) (c : string)
    (rate : float) (a : Z) :
  get_pay_link link_id w = (inr (Some l), w) ->
  PayLink.currency l = Some c ->
  c <> "" ->
  get_fiat_rate_satoshis c = Some rate ->
  amount_received request = Some a ->
  let lo := (rate * 995 * PayLink.min l)%float in
  let hi := (rate * 1010 * PayLink.max l)%float in
  let w1 := snd (increment_pay_link link_id pr_1 w) in
  callback_bounds l rate = (lo, hi)
  /\ (int_lt_num a lo = true ->
      api_lnurl_callback request link_id w
      = (inr (LnurlErrorResponse (reason_smaller a lo)), w1)
      /\ is_error_payload (LnurlErrorResponse (reason_smaller a lo)) = true)
  /\ (int_lt_num a lo = false -> int_gt_num a hi = false ->
      api_lnurl_callback request link_id w
      = callback_invoice request (PayLink.add_served_pr 1 l) a w1).
Proof.
  intros Hl Hc Hne Hrate Ha lo hi w1.
  apply get_pay_link_find in Hl. destruct Hl as [Hl _].
  destruct (fiat_rate_currency l c Hc Hne) as [Ht Hf].
  assert (Hb : callback_bounds l rate = (lo, hi))
    by (unfold callback_bounds; now rewrite Ht).
  assert (Hw : w1 = incremented link_id pr_1 w)
    by (subst w1; now rewrite increment_pay_link_run).
  split; [exact Hb|].
  rewrite (api_lnurl_callback_found _ _ _ _ Hl). cbn zeta.
  rewrite Hf, Hrate, Ha, Hb, Hw. cbn [fst snd].
  split.
  - intros Hlt. rewrite Hlt. now split.
  - intros Hlo Hhi. now rewrite Hlo, Hhi.
Qed.

(** The example of the specification: one to five dollars at 50000
    satoshis for a dollar; 49749999 millisatoshi is one below the lower
    bound 49750000. *)
Lemma callback_fiat_bounds_witness :
  let request := Demo.get [("amount", "49749999")] in
  let lo := (50000 * 995 * PayLink.min Demo.coffee)%float in
  let hi := (50000 * 1010 * PayLink.max Demo.coffee)%float in
  let w1 := snd (increment_pay_link "usd001" pr_1 Demo.shop) in
  callback_bounds Demo.coffee 50000 = (lo, hi)
  /\ (int_lt_num 49749999 lo = true ->
      api_lnurl_callback (C := Demo.env) request "usd001" Demo.shop
      = (inr (LnurlErrorResponse
                (reason_smaller (C := Demo.env) 49749999 lo)), w1)
      /\ is_error_payload
           (LnurlErrorResponse (reason_smaller (C := Demo.env) 49749999 lo))
         = true)
  /\ (int_lt_num 49749999 lo = false -> int_gt_num 49749999 hi = false ->
      api_lnurl_callback (C := Demo.env) request "usd001" Demo.shop
      = callback_invoice (C := Demo.env) request
          (PayLink.add_served_pr 1 Demo.coffee) 49749999 w1).
Proof.
  intros request.
  apply (callback_fiat_bounds (C := Demo.env) Demo.shop request "usd001"
           Demo.coffee "USD" 50000%float 49749999);
    [reflexivity | reflexivity | discriminate | reflexivity | reflexivity].
Defined.

(** C2, as stated, fails.  At 1000 satoshis for a dollar and a minimum of
    0.01 dollars the bound of the code, rate x 995 x link.min, is the float
    9950.0 and the code grants an invoice for 9950 millisatoshi.  That
    amount is strictly below the minimum of the claim: 0.995 x rate x
    link.min x 1000 is the float 9950.000000000002, and the stored minimum
    is 5764607523034235 / 2^59, so that in exact arithmetic 995 x rate x
    link.min is above 9950 as well.  At 50000 satoshis for a dollar and a
    minimum entered as 0.07 dollars, 0.995 x 50000 x 0.07 x 1000 is 3482500
    in decimal arithmetic; the bound of the code is the float above it and
    the code refuses the amount 3482500. *)
Lemma fiat_bounds_are_rounded :
  (PrimFloat.eqb (0.995 * 1000 * 0.01 * 1000)%float (1000 * 995 * 0.01)%float
   = false
   /\ int_lt_num 9950 (0.995 * 1000 * 0.01 * 1000)%float = true
   /\ PayLink.min Demo.gum = 0.01%float
   /\ Prim2SF (PayLink.min Demo.gum)
      = S754_finite false 5764607523034235 (-59)
   /\ 9950 * 2 ^ 59 < 995 * 1000 * 5764607523034235
   /\ fst (api_lnurl_callback (C := Demo.env_at 1000)
             (Demo.get [("amount", "9950")]) "usd002" Demo.kiosk)
      = inr [("pr", VStr "lnbc-gum"); ("routes", VList [])])
  /\ (995 * 50000 * 7 * 1000 = 3482500 * 1000 * 100
      /\ PayLink.min Demo.mint = 0.07%float
      /\ int_lt_num 3482500 (50000 * 995 * PayLink.min Demo.mint)%float = true
      /\ int_gt_num 3482500 (50000 * 1010 * PayLink.max Demo.mint)%float
         = false
      /\ fst (api_lnurl_callback (C := Demo.env_at 50000)
                (Demo.get [("amount", "3482500")]) "usd003" Demo.kiosk)
         = inr (LnurlErrorResponse
                  (reason_smaller (C := Demo.env_at 50000) 3482500
                     (50000 * 995 * 0.07)%float))).
Proof. repeat split. Qed.

(** C3.  The callback on a link without currency: the bounds are the
    floats [link.min * 1000] and [link.max * 1000] millisatoshi.  An
    amount strictly below the lower bound is answered with the payload
    "Amount {amount} is smaller than minimum {min}.", an amount not below
    the lower bound and strictly above the upper bound with "Amount
    {amount} is greater than maximum {max}.", and no invoice is requested
    in either case; an amount within the bounds reaches the comment check
    and the invoice. *)
Theorem callback_sat_bounds {C : Collaborators} (w : World)
    (request : Request) (link_id : string) (l : PayLink.t) (a : Z) :
  get_pay_link link_id w = (inr (Some l), w) ->
  truthy (PayLink.currency l) = false ->
  amount_received request = Some a ->
  let lo := (PayLink.min l * 1000)%float in
  let hi := (PayLink.max l * 1000)%float in
  let w1 := snd (increment_pay_link link_id pr_1 w) in
  let out := api_lnurl_callback request link_id w in
  (int_lt_num a lo = true ->
   out = (inr (LnurlErrorResponse
                 ("Amount " ++ str_int a ++ " is smaller than minimum "
                    ++ str_num lo ++ ".")), w1)
   /\ invoices (snd out) = invoices w)
  /\ (int_lt_num a lo = false -> int_gt_num a hi = true ->
      out = (inr (LnurlErrorResponse
                    ("Amount " ++ str_int a ++ " is greater than maximum "
                       ++ str_num hi ++ ".")), w1)
      /\ invoices (snd out) = invoices w)
  /\ (int_lt_num a lo = false -> int_gt_num a hi = false ->
      out = callback_invoice request (PayLink.add_served_pr 1 l) a w1).
Proof.
  intros Hl Ht Ha lo hi w1 out.
  apply get_pay_link_find in Hl. destruct Hl as [Hl _].
  assert (Hf : fiat_rate l = Some 1%float)
    by (unfold fiat_rate; now rewrite Ht).
  assert (Hb : callback_bounds l 1 = (lo, hi))
    by (unfold callback_bounds; now rewrite Ht).
  assert (Hw : w1 = incremented link_id pr_1 w)
    by (subst w1; now rewrite increment_pay_link_run).
  subst out. rewrite (api_lnurl_callback_found _ _ _ _ Hl). cbn zeta.
  rewrite Hf, Ha, Hb, Hw. cbn [fst snd].
  split; [|split].
  - intros Hlt. rewrite Hlt. now split.
  - intros Hlo Hgt. rewrite Hlo, Hgt. now split.
  - intros Hlo Hhi. now rewrite Hlo, Hhi.
Qed.

(** The example of the specification: min 10 and max 1000 satoshis, amount
    5000 millisatoshi. *)
Lemma callback_sat_bounds_witness :
  let request := Demo.get [("amount", "5000")] in
  let lo := (PayLink.min Demo.tips * 1000)%float in
  let hi := (PayLink.max Demo.tips * 1000)%float in
  let w1 := snd (increment_pay_link "abc123" pr_1 Demo.shop) in
  let out := api_lnurl_callback (C := Demo.env) request "abc123" Demo.shop in
  (int_lt_num 5000 lo = true ->
   out = (inr (LnurlErrorResponse
                 ("Amount " ++ str_int 5000 ++ " is smaller than minimum "
                    ++ Demo.show_num lo ++ ".")), w1)
   /\ invoices (snd out) = invoices Demo.shop)
  /\ (int_lt_num 5000 lo = false -> int_gt_num 5000 hi = true ->
      out = (inr (LnurlErrorResponse
                    ("Amount " ++ str_int 5000 ++ " is greater than maximum "
                       ++ Demo.show_num hi ++ ".")), w1)
      /\ invoices (snd out) = invoices Demo.shop)
  /\ (int_lt_num 5000 lo = false -> int_gt_num 5000 hi = false ->
      out = callback_invoice (C := Demo.env) request
              (PayLink.add_served_pr 1 Demo.tips) 5000 w1).
Proof.
  intros request.
  apply (callback_sat_bounds (C := Demo.env) Demo.shop request "abc123"
           Demo.tips 5000);
    reflexivity.
Defined.

(** The two examples of the specification, evaluated: 5000 millisatoshi
    is refused and the minimum 10000 is named; 15000 millisatoshi gives an
    invoice of 15 satoshis. *)
Example callback_5000_refused :
  api_lnurl_callback (C := Demo.env) (Demo.get [("amount", "5000")]) "abc123"
    Demo.shop
  = (inr (LnurlErrorResponse "Amount 5000 is smaller than minimum 10000.0."),
     with_pay_links [PayLink.add_served_pr 1 Demo.tips; Demo.coffee] Demo.shop).
Proof. reflexivity. Qed.

Example callback_15000_accepted :
  api_lnurl_callback (C := Demo.env) (Demo.get [("amount", "15000")]) "abc123"
    Demo.shop
  = (inr [("pr", VStr "lnbc-tips"); ("routes", VList [])],
     {| pay_links := [PayLink.add_served_pr 1 Demo.tips; Demo.coffee];
        settings := settings Demo.shop;
        files := files Demo.shop;
        invoices :=
          [ {| wallet_id := "wallet1"; amount := 15; memo := "tips";
               unhashed_description := "tips";
               extra := [("tag", VStr "lnurlp"); ("link", VStr "abc123");
                         ("comment", VNone); ("extra", VStr "15000")] |} ] |}).
Proof. reflexivity. Qed.

(** The bounds are the rounded products.  With a minimum of 0.01 and a
    maximum of 2.01 satoshis the lower bound is the float 10.0 and the
    amount 10 is accepted; the upper bound is the float below 2010 (its
    mantissa is odd at exponent -42) and the amount 2010 is refused as
    greater than the maximum. *)
Example callback_sat_bounds_rounded :
  PrimFloat.eqb (PayLink.min Demo.drop * 1000)%float 10%float = true
  /\ fst (api_lnurl_callback (C := Demo.env) (Demo.get [("amount", "10")])
            "sat002" Demo.kiosk)
     = inr [("pr", VStr "lnbc-drop"); ("routes", VList [])]
  /\ PrimFloat.ltb (PayLink.max Demo.drop * 1000)%float 2010%float = true
  /\ int_gt_num 2010 (PayLink.max Demo.drop * 1000)%float = true
  /\ fst (api_lnurl_callback (C := Demo.env) (Demo.get [("amount", "2010")])
            "sat002" Demo.kiosk)
     = inr (LnurlErrorResponse
              ("Amount 2010 is greater than maximum "
                 ++ Demo.show_num (PayLink.max Demo.drop * 1000)%float
                 ++ ".")).
Proof. repeat split. Qed.

(** One to five dollars at 50000 satoshis for a dollar: the bounds are
    49750000 and 252500000 millisatoshi; one below the lower bound is
    refused, the lower bound itself is accepted. *)
Example callback_usd_below_refused :
  fst (api_lnurl_callback (C := Demo.env) (Demo.get [("amount", "49749999")])
         "usd001" Demo.shop)
  = inr (LnurlErrorResponse
           "Amount 49749999 is smaller than minimum 49750000.0.").
Proof. reflexivity. Qed.

Example callback_usd_bound_accepted :
  fst (api_lnurl_callback (C := Demo.env) (Demo.get [("amount", "49750000")])
         "usd001" Demo.shop)
  = inr [("pr", VStr "lnbc-coffee"); ("routes", VList [])].
Proof. reflexivity. Qed.

Lemma len_nonempty (c : string) : c <> "" -> len c > 0.
Proof. destruct c; [contradiction | intros _; unfold len; simpl; lia]. Qed.

(** C7.  The callback with a comment longer than [comment_chars] of the
    link (in particular any non-empty comment when [comment_chars] is 0):
    the answer is a protocol error payload and no invoice is requested;
    once the amount has passed its own check, the reason names the length
    of the comment and the allowed length. *)
Theorem callback_comment_too_long {C : Collaborators} (w : World)
    (request : Request) (link_id : string) (l : PayLink.t) (c : string)
    (rate : float) (a : Z) :
  get_pay_link link_id w = (inr (Some l), w) ->
  fiat_rate l = Some rate ->
  amount_received request = Some a ->
  query_get "comment" (query_params request) = Some c ->
  len c > PayLink.comment_chars l
  \/ (PayLink.comment_chars l = 0 /\ c <> "") ->
  let out := api_lnurl_callback request link_id w in
  (exists reason,
      fst out = inr (LnurlErrorResponse reason)
      /\ is_error_payload (LnurlErrorResponse reason) = true)
  /\ invoices (snd out) = invoices w
  /\ (int_lt_num a (fst (callback_bounds l rate)) = false ->
      int_gt_num a (snd (callback_bounds l rate)) = false ->
      fst out
      = inr (LnurlErrorResponse
               ("Got a comment with " ++ str_int (len c)
                  ++ " characters, but can only accept "
                  ++ str_int (PayLink.comment_chars l)))).
Proof.
  intros Hl Hf Ha Hc Hlen out.
  assert (Hgt : len c > PayLink.comment_chars l).
  { destruct Hlen as [H|[H0 Hne]]; [exact H|].
    rewrite H0. now apply len_nonempty. }
  apply get_pay_link_find in Hl. destruct Hl as [Hl _].
  subst out. rewrite (api_lnurl_callback_found _ _ _ _ Hl). cbn zeta.
  rewrite Hf, Ha.
  rewrite (callback_invoice_rejects _ request (PayLink.add_served_pr 1 l) a c Hc)
    by exact Hgt.
  destruct (int_lt_num a _) eqn:Hlo.
  { split; [eexists; split; reflexivity|]. split; [reflexivity|].
    intros H. congruence. }
  destruct (int_gt_num a _) eqn:Hhi.
  { split; [eexists; split; reflexivity|]. split; [reflexivity|].
    intros _ H. congruence. }
  split; [eexists; split; reflexivity|]. split; reflexivity.
Qed.

(** A link with [comment_chars] 0 and the one-character comment [x]. *)
Lemma callback_comment_too_long_witness :
  let request := Demo.get [("amount", "15000"); ("comment", "x")] in
  let out := api_lnurl_callback (C := Demo.env) request "abc123" Demo.shop in
  (exists reason,
      fst out = inr (LnurlErrorResponse reason)
      /\ is_error_payload (LnurlErrorResponse reason) = true)
  /\ invoices (snd out) = invoices Demo.shop
  /\ (int_lt_num 15000 (fst (callback_bounds Demo.tips 1)) = false ->
      int_gt_num 15000 (snd (callback_bounds Demo.tips 1)) = false ->
      fst out
      = inr (LnurlErrorResponse
               ("Got a comment with " ++ str_int (len "x")
                  ++ " characters, but can only accept "
                  ++ str_int (PayLink.comment_chars Demo.tips)))).
Proof.
  intros request.
  apply (callback_comment_too_long (C := Demo.env) Demo.shop request "abc123"
           Demo.tips "x" 1%float 15000);
    [reflexivity | reflexivity | reflexivity | reflexivity |].
  right. split; [reflexivity | discriminate].
Defined.

(** Ten characters allowed, eleven sent. *)
Example callback_eleven_characters :
  fst (api_lnurl_callback (C := Demo.env)
         (Demo.get [("amount", "100000000"); ("comment", "hello world")])
         "usd001" Demo.shop)
  = inr (LnurlErrorResponse
           "Got a comment with 11 characters, but can only accept 10").
Proof. reflexivity. Qed.

(* ------------------------------------------------------------------ *)
(** * The link repository *)
(* ------------------------------------------------------------------ *)

Lemma filter_nonempty (p : PayLink.t -> bool) (rows : list PayLink.t)
    (l : PayLink.t) :
  In l rows -> p l = true -> filter p rows <> [].
Proof.
  intros Hin Hp Hnil.
  assert (H : In l (filter p rows)) by (apply filter_In; now split).
  rewrite Hnil in H. exact H.
Qed.

Lemma find_none_filter (p : PayLink.t -> bool) (rows : list PayLink.t) :
  find p rows = None -> filter p rows = [].
Proof.
  induction rows as [|r rows IH]; simpl; [reflexivity|].
  destruct (p r); [discriminate | exact IH].
Qed.

Lemma find_append (p : PayLink.t -> bool) (rows : list PayLink.t)
    (r : PayLink.t) :
  find p (rows ++ [r])
  = match find p rows with
    | Some x => Some x
    | None => if p r then Some r else None
    end.
Proof.
  induction rows as [|x rows IH]; simpl; [reflexivity|].
  now destruct (p x).
Qed.

(** A username held by a row of the table is refused. *)
Lemma check_lnaddress_not_exists_taken (w : World) (u : string)
    (l : PayLink.t) :
  In l (pay_links w) -> PayLink.username l = Some u ->
  check_lnaddress_not_exists u w = (inl username_taken, w).
Proof.
  intros Hin Hu. unfold check_lnaddress_not_exists, bind, fetchall_pay_links.
  assert (Hp : username_is u l = true)
    by (unfold username_is; rewrite Hu; apply String.eqb_refl).
  pose proof (filter_nonempty _ _ _ Hin Hp) as Hne.
  destruct (filter (username_is u) (pay_links w)); [contradiction | reflexivity].
Qed.

Lemma check_lnaddress_not_exists_fresh (w : World) (u : string) :
  find (username_is u) (pay_links w) = None ->
  check_lnaddress_not_exists u w = (inr true, w).
Proof.
  intros Hf. unfold check_lnaddress_not_exists, bind, fetchall_pay_links.
  now rewrite (find_none_filter _ _ Hf).
Qed.

Lemma bind_ok {A B : Type} (m : M A) (f : A -> M B) (w : World) (a : A)
    (w1 : World) :
  m w = (inr a, w1) -> bind m f w = f a w1.
Proof. intros H. unfold bind. now rewrite H. Qed.

Lemma bind_err {A B : Type} (m : M A) (f : A -> M B) (w : World) (e : exn)
    (w1 : World) :
  m w = (inl e, w1) -> bind m f w = (inl e, w1).
Proof. intros H. unfold bind. now rewrite H. Qed.

Lemma truthy_nonempty (u : string) : u <> "" -> truthy (Some u) = true.
Proof. destruct u; [contradiction | reflexivity]. Qed.

(** C9.  [create_pay_link] with a (non-empty, well-formed) username that a
    row of the table already holds raises the username-taken exception and
    leaves the table as it was.  With a username that no row holds, or
    without one, and with an id that no row holds, it appends exactly one
    row and returns it; the row carries the fields of the request and both
    counters at 0, and it is what [get_pay_link] returns for its id and
    [get_address_data] for its username. *)
Theorem create_pay_link_spec {C : Collaborators} (w : World)
    (data : CreatePayLinkData.t) (wallet_id short_hash : string) :
  (forall u l,
      CreatePayLinkData.username data = Some u -> u <> "" ->
      check_lnaddress_format u = true ->
      In l (pay_links w) -> PayLink.username l = Some u ->
      create_pay_link data wallet_id short_hash w = (inl username_taken, w))
  /\ (get_pay_link (substring 0 6 short_hash) w = (inr None, w) ->
      truthy (CreatePayLinkData.username data) = false
      \/ (exists u,
             CreatePayLinkData.username data = Some u
             /\ check_lnaddress_format u = true
             /\ get_address_data u w = (inr None, w)) ->
      exists link w',
        create_pay_link data wallet_id short_hash w = (inr link, w')
        /\ pay_links w' = (pay_links w ++ [link])%list
        /\ created_from data wallet_id (substring 0 6 short_hash) link
        /\ get_pay_link (PayLink.id link) w' = (inr (Some link), w')
        /\ (forall u,
               CreatePayLinkData.username data = Some u ->
               get_address_data u w = (inr None, w) ->
               get_address_data u w' = (inr (Some link), w'))).
Proof.
  split.
  - intros u l Hu Hne Hfmt Hin Hl.
    unfold create_pay_link. apply bind_err.
    rewrite Hu, (truthy_nonempty u Hne). cbn [or_empty].
    unfold check_format. rewrite Hfmt.
    rewrite (bind_ok _ _ w tt w) by reflexivity.
    apply bind_err. now apply check_lnaddress_not_exists_taken with (l := l).
  - intros Hid Hname.
    apply get_pay_link_find in Hid. destruct Hid as [Hid _].
    set (link_id := substring 0 6 short_hash) in *.
    set (row := new_row link_id wallet_id data).
    exists row, (with_pay_links (pay_links w ++ [row]) w).
    assert (Hfind : find (id_is link_id) (pay_links w ++ [row])%list = Some row).
    { rewrite find_append, Hid. unfold id_is. cbn [PayLink.id row new_row].
      now rewrite String.eqb_refl. }
    assert (Hpre :
      (if truthy (CreatePayLinkData.username data)
       then check_format (or_empty (CreatePayLinkData.username data)) ;;
            check_lnaddress_not_exists
              (or_empty (CreatePayLinkData.username data)) ;;
            ret tt
       else ret tt) w = (inr tt, w)).
    { destruct Hname as [Hf|[u [Hu [Hfmt Hfresh]]]].
      - now rewrite Hf.
      - apply get_address_data_find in Hfresh. destruct Hfresh as [Hfresh _].
        rewrite Hu. cbn [or_empty]. unfold check_format. rewrite Hfmt.
        destruct (truthy (Some u)); [|reflexivity].
        rewrite (bind_ok _ _ w tt w) by reflexivity.
        now rewrite (bind_ok _ _ w true w)
          by (now apply check_lnaddress_not_exists_fresh). }
    assert (Hrun : create_pay_link data wallet_id short_hash w
                   = (inr row, with_pay_links (pay_links w ++ [row]) w)).
    { unfold create_pay_link. rewrite (bind_ok _ _ _ _ _ Hpre).
      fold link_id. fold row.
      unfold bind, execute_insert_pay_links, py_assert, ret, get_pay_link,
        fetchone_pay_links.
      cbn [pay_links with_pay_links]. now rewrite Hfind. }
    split; [exact Hrun|]. split; [reflexivity|].
    split; [repeat split|]. split.
    + unfold get_pay_link, fetchone_pay_links. cbn [pay_links with_pay_links].
      cbn [PayLink.id row new_row]. now rewrite Hfind.
    + intros u Hu Hfresh.
      apply get_address_data_find in Hfresh. destruct Hfresh as [Hfresh _].
      unfold get_address_data, fetchone_pay_links.
      cbn [pay_links with_pay_links]. rewrite find_append, Hfresh.
      unfold username_is. cbn [PayLink.username row new_row]. rewrite Hu.
      now rewrite String.eqb_refl.
Qed.

Lemma create_pay_link_spec_witness :
  create_pay_link (C := Demo.env) Demo.as_alice "wallet2" "Zq3xT9kLmN"
    Demo.shop = (inl username_taken, Demo.shop)
  /\ (exists link w',
        create_pay_link (C := Demo.env) Demo.as_carol "wallet2" "Zq3xT9kLmN"
          Demo.shop = (inr link, w')
        /\ pay_links w' = (pay_links Demo.shop ++ [link])%list
        /\ created_from Demo.as_carol "wallet2" (substring 0 6 "Zq3xT9kLmN")
             link
        /\ get_pay_link (PayLink.id link) w' = (inr (Some link), w')
        /\ (forall u,
               CreatePayLinkData.username Demo.as_carol = Some u ->
               get_address_data u Demo.shop = (inr None, Demo.shop) ->
               get_address_data u w' = (inr (Some link), w'))).
Proof.
  split.
  - apply (proj1 (create_pay_link_spec (C := Demo.env) Demo.shop Demo.as_alice
                    "wallet2" "Zq3xT9kLmN") "alice" Demo.coffee);
      [reflexivity | discriminate | reflexivity | right; left; reflexivity
      | reflexivity].
  - apply (proj2 (create_pay_link_spec (C := Demo.env) Demo.shop Demo.as_carol
                    "wallet2" "Zq3xT9kLmN")); [reflexivity|].
    right. exists "carol". repeat split.
Defined.

(** The created link, evaluated: the id is the first six characters of
    the generated hash. *)
Example create_carol :
  fst (create_pay_link (C := Demo.env) Demo.as_carol "wallet2" "Zq3xT9kLmN"
         Demo.shop)
  = inr (PayLink.Build "Zq3xT9" "wallet2" "tea" 2%float 20%float 0 0
           None None None None None 0 None 100 (Some "carol") None).
Proof. reflexivity. Qed.

(** C10.  [update_pay_link] on a known link, with a [username] entry equal
    to the non-empty username the link already has: the call raises and
    the table is left as it was.  The uniqueness check finds the row of
    the link itself, so the exception is the username-taken one whenever
    the username passes the format rule (which comes first). *)
Theorem update_own_username_rejected {C : Collaborators} (w : World)
    (link_id : string) (kwargs : Update.t) (l : PayLink.t) (u : string) :
  get_pay_link link_id w = (inr (Some l), w) ->
  PayLink.username l = Some u ->
  u <> "" ->
  Update.username kwargs = Some (Some u) ->
  exists e,
    update_pay_link link_id kwargs w = (inl e, w)
    /\ (check_lnaddress_format u = true -> e = username_taken)
    /\ (check_lnaddress_format u = false -> e = FormatError).
Proof.
  intros Hl Hu Hne Hk.
  apply get_pay_link_find in Hl. destruct Hl as [Hl _].
  apply find_some in Hl. destruct Hl as [Hin _].
  unfold update_pay_link. rewrite Hk. cbn [or_empty].
  pose proof (len_nonempty u Hne) as Hlen.
  destruct (Z.gtb_spec (len u) 0) as [_|Hle]; [|lia].
  unfold check_format.
  destruct (check_lnaddress_format u) eqn:Hfmt.
  - exists username_taken. split; [|split; [reflexivity | discriminate]].
    apply bind_err. rewrite (bind_ok _ _ w tt w) by reflexivity.
    apply bind_err. now apply check_lnaddress_not_exists_taken with (l := l).
  - exists FormatError. split; [|split; [discriminate | reflexivity]].
    apply bind_err. now apply bind_err.
Qed.

Lemma update_own_username_rejected_witness :
  exists e,
    update_pay_link (C := Demo.env) "usd001" Demo.same_name Demo.shop
    = (inl e, Demo.shop)
    /\ (check_lnaddress_format (Collaborators := Demo.env) "alice" = true ->
        e = username_taken)
    /\ (check_lnaddress_format (Collaborators := Demo.env) "alice" = false ->
        e = FormatError).
Proof.
  apply (update_own_username_rejected (C := Demo.env) Demo.shop "usd001"
           Demo.same_name Demo.coffee "alice");
    [reflexivity | reflexivity | discriminate | reflexivity].
Defined.

Example update_same_name :
  update_pay_link (C := Demo.env) "usd001" Demo.same_name Demo.shop
  = (inl (Exception "Username already exists. Try a different one."),
     Demo.shop).
Proof. reflexivity. Qed.

(* ------------------------------------------------------------------ *)
(** * The settings and the relay file *)
(* ------------------------------------------------------------------ *)

(** Whatever the relay file holds, the relay list of the settings that
    [get_or_create_lnurlp_settings] returns is empty. *)
Lemma get_or_create_relays_empty {C : Collaborators} (key : string)
    (w w' : World) (s : ExtendedLnurlpSettings) :
  get_or_create_lnurlp_settings key w = (inr s, w') ->
  lnbits_nostr2http_relays s = [].
Proof.
  unfold get_or_create_lnurlp_settings, bind, fetchone_settings, path_exists,
    read_file, execute_insert_settings, ret.
  destruct (truthy lnbits_nostr2http_relays_filepath).
  - destruct (existsb _ (files w)).
    + destruct (find _ (files w)); [|discriminate].
      destruct (hd_error (settings w)); intros H; injection H as <- _;
        reflexivity.
    + destruct (hd_error (settings w)); intros H; injection H as <- _;
        reflexivity.
  - destruct (hd_error (settings w)); intros H; injection H as <- _;
      reflexivity.
Qed.

(** C8, the code at the failing input.  The relay file is configured and
    present and holds two entries; the settings returned carry an empty
    relay list, both when the row exists and when it is created. *)
Theorem relay_file_read_and_dropped :
  lnbits_nostr2http_relays_filepath (Collaborators := Demo.env)
  = Some "/data/relays.txt"
  /\ path_exists "/data/relays.txt" Demo.shop = (inr true, Demo.shop)
  /\ read_file "/data/relays.txt" Demo.shop = (inr Demo.relay_file, Demo.shop)
  /\ relay_lines Demo.relay_file = ["wss://relay.one"; "wss://relay.two"]
  /\ get_or_create_lnurlp_settings (C := Demo.env) "22bb" Demo.shop
     = (inr {| ext_nostr_private_key := "11aa";
               lnbits_nostr2http_relays := [] |}, Demo.shop)
  /\ get_or_create_lnurlp_settings (C := Demo.env) "22bb"
       (with_settings [] Demo.shop)
     = (inr {| ext_nostr_private_key := "22bb";
               lnbits_nostr2http_relays := [] |},
        with_settings [ {| nostr_private_key := "22bb" |} ] Demo.shop).
Proof. repeat split. Qed.

(* ------------------------------------------------------------------ *)
(** * The bounds of the Pay Request *)
(* ------------------------------------------------------------------ *)

(** The direct-id form: both bounds are [round(bound * rate) * 1000], with
    rate 1 for a link without currency. *)
Lemma api_lnurl_response_sendable {C : Collaborators} (w : World)
    (request : Request) (link_id : string) (l : PayLink.t) (rate : float)
    (lo hi : Z) :
  get_pay_link link_id w = (inr (Some l), w) ->
  fiat_rate l = Some rate ->
  round (PayLink.min l * rate)%float = inr lo ->
  round (PayLink.max l * rate)%float = inr hi ->
  (truthy (PayLink.currency l) = false -> rate = 1%float)
  /\ exists d,
      fst (api_lnurl_response request link_id w) = inr d
      /\ dict_get "tag" d = Some (VStr "payRequest")
      /\ dict_get "minSendable" d = Some (VInt (lo * 1000))
      /\ dict_get "maxSendable" d = Some (VInt (hi * 1000)).
Proof.
  intros Hl Hf Hlo Hhi. split.
  { intros Ht. unfold fiat_rate in Hf. rewrite Ht in Hf. congruence. }
  apply get_pay_link_find in Hl. destruct Hl as [Hl _].
  unfold api_lnurl_response, bind.
  rewrite increment_pay_link_run by reflexivity. rewrite Hl.
  cbn [option_map Increment.apply Increment.served_meta Increment.served_pr].
  change (fiat_rate (PayLink.add_served_meta 1 l)) with (fiat_rate l).
  rewrite Hf. unfold call, lift, ret.
  change (PayLink.min (PayLink.add_served_meta 1 l)) with (PayLink.min l).
  change (PayLink.max (PayLink.add_served_meta 1 l)) with (PayLink.max l).
  rewrite Hlo, Hhi.
  destruct (_ >? 0); eexists; (split; [reflexivity|]); repeat split.
Qed.

(** C4, the code at the failing input.  The link [coffee] is in dollars,
    from 1 to 5, and a dollar is 50000 satoshis.  The direct-id form
    answers with 50000000 and 250000000 millisatoshi, which is
    [round(bound * rate) * 1000]; the address form answers with 1000 and
    5000, the bounds times 1000 with no rate applied. *)
Theorem address_path_ignores_rate :
  get_address_data "alice" Demo.shop = (inr (Some Demo.coffee), Demo.shop)
  /\ fiat_rate (C := Demo.env) Demo.coffee = Some 50000%float
  /\ round (PayLink.min Demo.coffee * 50000)%float = inr 50000
  /\ round (PayLink.max Demo.coffee * 50000)%float = inr 250000
  /\ 50000 * 1000 = 50000000
  /\ 250000 * 1000 = 250000000
  /\ (exists d,
        fst (api_lnurl_response (C := Demo.env) (Demo.get []) "usd001"
               Demo.shop) = inr d
        /\ dict_get "minSendable" d = Some (VInt 50000000)
        /\ dict_get "maxSendable" d = Some (VInt 250000000))
  /\ (exists d,
        fst (lnurl_response (C := Demo.env) "alice" "pay.example" (Demo.get [])
               Demo.shop) = inr d
        /\ dict_get "tag" d = Some (VStr "payRequest")
        /\ dict_get "minSendable" d = Some (VInt 1000)
        /\ dict_get "maxSendable" d = Some (VInt 5000)).
Proof.
  repeat split; eexists; repeat split.
Qed.

(** The older handler of line 43 answers an unknown link with an error
    payload instead of the HTTP exception. *)
Lemma older_callback_unknown {C : Collaborators} (w : World)
    (request : Request) (link_id : string) (a : Z) :
  get_pay_link link_id w = (inr None, w) ->
  LnAddress.api_lnurl_callback request link_id a w
  = (inr (LnurlErrorResponse "Address not found"), w).
Proof.
  intros Hl. unfold LnAddress.api_lnurl_callback.
  now rewrite (bind_ok _ _ _ _ _ Hl).
Qed.

(* ------------------------------------------------------------------ *)
(** * The settings row over its life *)
(* ------------------------------------------------------------------ *)

Lemma existsb_find {A : Type} (p : A -> bool) (l : list A) :
  existsb p l = true -> exists x, find p l = Some x.
Proof.
  induction l as [|a l IH]; simpl; [discriminate|].
  destruct (p a); [intros _; now exists a | exact IH].
Qed.

(** What [get_or_create_lnurlp_settings] computes: the first row if there
    is one, otherwise a new row with the generated key. *)
Lemma get_or_create_run {C : Collaborators} (key : string) (w : World) :
  get_or_create_lnurlp_settings key w
  = match hd_error (settings w) with
    | Some r =>
        (inr {| ext_nostr_private_key := nostr_private_key r;
                lnbits_nostr2http_relays := [] |}, w)
    | None =>
        (inr {| ext_nostr_private_key := key;
                lnbits_nostr2http_relays := [] |},
         with_settings (settings w ++ [ {| nostr_private_key := key |} ]) w)
    end.
Proof.
  unfold get_or_create_lnurlp_settings, bind, fetchone_settings, path_exists,
    read_file, execute_insert_settings, ret.
  destruct (truthy lnbits_nostr2http_relays_filepath).
  - destruct (existsb _ (files w)) eqn:He.
    + apply existsb_find in He. destruct He as [f Hf]. rewrite Hf.
      now destruct (hd_error (settings w)).
    + now destruct (hd_error (settings w)).
  - now destruct (hd_error (settings w)).
Qed.

(** X1.  [get_or_create_lnurlp_settings] never fails.  On an empty table it
    writes one row with the generated key; on a table with a row it writes
    nothing.  A second call, whatever key the generator would give then,
    returns the very same settings and leaves the world as the first call
    left it: the key is generated once. *)
Theorem get_or_create_generates_once {C : Collaborators} (key1 key2 : string)
    (w : World) :
  exists s1 w1,
    get_or_create_lnurlp_settings key1 w = (inr s1, w1)
    /\ (settings w = [] ->
        ext_nostr_private_key s1 = key1
        /\ settings w1 = [ {| nostr_private_key := key1 |} ])
    /\ (settings w <> [] -> w1 = w)
    /\ pay_links w1 = pay_links w
    /\ files w1 = files w
    /\ get_or_create_lnurlp_settings key2 w1 = (inr s1, w1).
Proof.
  rewrite get_or_create_run.
  destruct (settings w) as [|r rows] eqn:Hs; cbn [hd_error].
  - eexists. eexists. split; [reflexivity|].
    split; [intros _; now split|]. split; [intros H; now contradiction H|].
    split; [reflexivity|]. split; [reflexivity|].
    rewrite get_or_create_run. reflexivity.
  - eexists. eexists. split; [reflexivity|].
    split; [discriminate|]. split; [reflexivity|].
    split; [reflexivity|]. split; [reflexivity|].
    rewrite get_or_create_run, Hs. reflexivity.
Qed.

Lemma find_filter_negb {A : Type} (p : A -> bool) (l : list A) :
  find p (filter (fun x => negb (p x)) l) = None.
Proof.
  induction l as [|a l IH]; simpl; [reflexivity|].
  destruct (p a) eqn:Hp; simpl; [exact IH | now rewrite Hp].
Qed.

Lemma existsb_filter_negb {A : Type} (p : A -> bool) (l : list A) :
  existsb p (filter (fun x => negb (p x)) l) = false.
Proof.
  induction l as [|a l IH]; simpl; [reflexivity|].
  destruct (p a) eqn:Hp; simpl; [exact IH | now rewrite Hp].
Qed.

Lemma existsb_false_filter {A : Type} (p : A -> bool) (l : list A) :
  existsb p l = false -> filter (fun x => negb (p x)) l = l.
Proof.
  induction l as [|a l IH]; simpl; [reflexivity|].
  destruct (p a); simpl; [discriminate|]. intros H. now rewrite IH.
Qed.

Lemma find_file_other (p q : string) (l : list (string * string)) :
  q <> p ->
  find (file_is q) (filter (fun f => negb (file_is p f)) l)
  = find (file_is q) l.
Proof.
  intros Hq. induction l as [|f l IH]; simpl; [reflexivity|].
  destruct (file_is p f) eqn:Hp; simpl.
  - destruct (file_is q f) eqn:Hfq; [|exact IH].
    unfold file_is in Hp, Hfq.
    apply String.eqb_eq in Hp. apply String.eqb_eq in Hfq. congruence.
  - rewrite IH. reflexivity.
Qed.

(** The world that [delete_lnurlp_settings] leaves. *)
Lemma delete_lnurlp_settings_run {C : Collaborators} (w : World) :
  delete_lnurlp_settings w
  = (inr tt,
     if truthy lnbits_nostr2http_relays_filepath
     then with_files
            (filter (fun f => negb (file_is
                                      (or_empty lnbits_nostr2http_relays_filepath)
                                      f)) (files w))
            (with_settings [] w)
     else with_settings [] w).
Proof.
  unfold delete_lnurlp_settings, bind, execute_delete_settings, path_exists,
    remove_file, ret.
  destruct (truthy lnbits_nostr2http_relays_filepath); [|reflexivity].
  cbn [files with_settings].
  destruct (existsb _ (files w)) eqn:He; [reflexivity|].
  now rewrite (existsb_false_filter _ _ He).
Qed.

(** X2.  [delete_lnurlp_settings] never fails; it empties the settings
    table and, when a relay path is configured, leaves no file at that
    path; the pay links, the invoices and the files at other paths are
    untouched.  The next [get_or_create_lnurlp_settings] then writes and
    returns a newly generated key. *)
Theorem delete_then_get_or_create {C : Collaborators} (key : string)
    (w : World) :
  exists w1,
    delete_lnurlp_settings w = (inr tt, w1)
    /\ settings w1 = []
    /\ (truthy lnbits_nostr2http_relays_filepath = true ->
        path_exists (or_empty lnbits_nostr2http_relays_filepath) w1
        = (inr false, w1))
    /\ (forall q, Some q <> lnbits_nostr2http_relays_filepath ->
        find (file_is q) (files w1) = find (file_is q) (files w))
    /\ pay_links w1 = pay_links w
    /\ invoices w1 = invoices w
    /\ get_or_create_lnurlp_settings key w1
       = (inr {| ext_nostr_private_key := key;
                 lnbits_nostr2http_relays := [] |},
          with_settings [ {| nostr_private_key := key |} ] w1).
Proof.
  rewrite delete_lnurlp_settings_run. eexists. split; [reflexivity|].
  destruct (truthy lnbits_nostr2http_relays_filepath) eqn:Ht.
  - split; [reflexivity|]. split.
    { intros _. unfold path_exists. cbn [files with_files].
      now rewrite existsb_filter_negb. }
    split.
    { intros q Hq. cbn [files with_files with_settings].
      destruct lnbits_nostr2http_relays_filepath as [p|]; [|discriminate].
      cbn [or_empty]. apply find_file_other. congruence. }
    split; [reflexivity|]. split; [reflexivity|].
    now rewrite get_or_create_run.
  - split; [reflexivity|]. split; [discriminate|].
    split; [reflexivity|]. split; [reflexivity|]. split; [reflexivity|].
    now rewrite get_or_create_run.
Qed.

(** X3.  [update_lnurlp_settings] with a relay path configured never
    returns: it raises, after the key has been written to every settings
    row.  When the directory can be made the exception is the
    [AttributeError] of [join], and the relay file is left empty: the
    relay list given is never stored. *)
Theorem update_settings_never_writes_relays {C : Collaborators}
    (makedirs_ok : bool) (s : ExtendedLnurlpSettings) (w : World) :
  truthy lnbits_nostr2http_relays_filepath = true ->
  exists e w',
    update_lnurlp_settings makedirs_ok s w = (inl e, w')
    /\ Forall (fun r => nostr_private_key r = ext_nostr_private_key s)
         (settings w')
    /\ length (settings w') = length (settings w)
    /\ (makedirs_ok = true ->
        e = AttributeError
        /\ read_file (or_empty lnbits_nostr2http_relays_filepath) w'
           = (inr "", w'))
    /\ (makedirs_ok = false -> e = MakedirsError /\ files w' = files w).
Proof.
  intros Ht. unfold update_lnurlp_settings. rewrite Ht.
  assert (Hall : forall rows : list LnurlpSettings,
             Forall (fun r => nostr_private_key r = ext_nostr_private_key s)
               (map (fun _ => {| nostr_private_key := ext_nostr_private_key s |})
                  rows)).
  { induction rows; simpl; constructor; [reflexivity | assumption]. }
  destruct makedirs_ok.
  - eexists. eexists. split; [reflexivity|].
    split; [apply Hall|]. split; [apply length_map|].
    split; [|discriminate]. intros _. split; [reflexivity|].
    unfold read_file, open_w, file_is. cbn [snd files with_files find fst].
    now rewrite String.eqb_refl.
  - eexists. eexists. split; [reflexivity|].
    split; [apply Hall|]. split; [apply length_map|].
    split; [discriminate|]. intros _. now split.
Qed.

Lemma update_settings_never_writes_relays_witness :
  exists e w',
    update_lnurlp_settings (C := Demo.env) true
      {| ext_nostr_private_key := "33cc";
         lnbits_nostr2http_relays := ["wss://relay.three"] |} Demo.shop
    = (inl e, w')
    /\ Forall (fun r => nostr_private_key r = "33cc") (settings w')
    /\ length (settings w') = length (settings Demo.shop)
    /\ (true = true ->
        e = AttributeError
        /\ read_file "/data/relays.txt" w' = (inr "", w'))
    /\ (true = false -> e = MakedirsError /\ files w' = files Demo.shop).
Proof.
  apply (update_settings_never_writes_relays (C := Demo.env) true
           {| ext_nostr_private_key := "33cc";
              lnbits_nostr2http_relays := ["wss://relay.three"] |} Demo.shop).
  reflexivity.
Defined.

(** X4.  [update_lnurlp_settings] with no relay path configured returns
    the settings it was given.  The key reaches the table only if a row
    exists: then the next [get_or_create_lnurlp_settings] returns it; on an
    empty table the UPDATE changes nothing, and the next
    [get_or_create_lnurlp_settings] generates a key of its own. *)
Theorem update_settings_key_round_trip {C : Collaborators}
    (makedirs_ok : bool) (s : ExtendedLnurlpSettings) (key : string)
    (w : World) :
  truthy lnbits_nostr2http_relays_filepath = false ->
  exists w',
    update_lnurlp_settings makedirs_ok s w = (inr s, w')
    /\ files w' = files w
    /\ pay_links w' = pay_links w
    /\ (settings w <> [] ->
        get_or_create_lnurlp_settings key w'
        = (inr {| ext_nostr_private_key := ext_nostr_private_key s;
                  lnbits_nostr2http_relays := [] |}, w'))
    /\ (settings w = [] ->
        w' = w
        /\ fst (get_or_create_lnurlp_settings key w')
           = inr {| ext_nostr_private_key := key;
                    lnbits_nostr2http_relays := [] |}).
Proof.
  intros Ht. unfold update_lnurlp_settings. rewrite Ht.
  eexists. split; [reflexivity|]. split; [reflexivity|].
  split; [reflexivity|]. split.
  - intros Hne. rewrite get_or_create_run.
    unfold execute_update_settings. cbn [snd settings with_settings].
    destruct (settings w); [now contradiction Hne | reflexivity].
  - intros He. unfold execute_update_settings. cbn [snd]. rewrite He.
    cbn [map]. split.
    + rewrite <- He. now destruct w.
    + rewrite get_or_create_run. cbn [settings with_settings hd_error].
      reflexivity.
Qed.

Lemma update_settings_key_round_trip_witness :
  exists w',
    update_lnurlp_settings (C := Demo2.env) true
      {| ext_nostr_private_key := "33cc";
         lnbits_nostr2http_relays := ["wss://relay.three"] |} Demo.shop
    = (inr {| ext_nostr_private_key := "33cc";
              lnbits_nostr2http_relays := ["wss://relay.three"] |}, w')
    /\ files w' = files Demo.shop
    /\ pay_links w' = pay_links Demo.shop
    /\ (settings Demo.shop <> [] ->
        get_or_create_lnurlp_settings (C := Demo2.env) "44dd" w'
        = (inr {| ext_nostr_private_key := "33cc";
                  lnbits_nostr2http_relays := [] |}, w'))
    /\ (settings Demo.shop = [] ->
        w' = Demo.shop
        /\ fst (get_or_create_lnurlp_settings (C := Demo2.env) "44dd" w')
           = inr {| ext_nostr_private_key := "44dd";
                    lnbits_nostr2http_relays := [] |}).
Proof.
  apply (update_settings_key_round_trip (C := Demo2.env) true
           {| ext_nostr_private_key := "33cc";
              lnbits_nostr2http_relays := ["wss://relay.three"] |}
           "44dd" Demo.shop).
  reflexivity.
Defined.

(* ------------------------------------------------------------------ *)
(** * The link table over its life *)
(* ------------------------------------------------------------------ *)

(** What [create_pay_link] computes. *)
Lemma create_pay_link_run {C : Collaborators} (data : CreatePayLinkData.t)
    (wallet_id short_hash : string) (w : World) :
  create_pay_link data wallet_id short_hash w
  = let u := or_empty (CreatePayLinkData.username data) in
    let link_id := substring 0 6 short_hash in
    let w' :=
      with_pay_links (pay_links w ++ [new_row link_id wallet_id data]) w in
    let inserted :=
      match find (id_is link_id) (pay_links w') with
      | Some l => (inr l, w')
      | None =>
          (inl (AssertionError "Newly created link couldn't be retrieved"), w')
      end in
    if truthy (CreatePayLinkData.username data)
    then
      if check_lnaddress_format u
      then
        match filter (username_is u) (pay_links w) with
        | [] => inserted
        | _ :: _ => (inl username_taken, w)
        end
      else (inl FormatError, w)
    else inserted.
Proof.
  unfold create_pay_link, bind, check_format, check_lnaddress_not_exists,
    fetchall_pay_links, execute_insert_pay_links, py_assert, get_pay_link,
    fetchone_pay_links, ret, raise, bind.
  cbn zeta.
  destruct (truthy (CreatePayLinkData.username data)).
  - destruct (check_lnaddress_format _); [|reflexivity].
    destruct (filter _ (pay_links w)); [|reflexivity].
    cbn [pay_links with_pay_links]. now destruct (find _ _).
  - cbn [pay_links with_pay_links]. now destruct (find _ _).
Qed.

Lemma id_is_new_row (i wallet_id : string)
    (data : CreatePayLinkData.t) :
  id_is i (new_row i wallet_id data) = true.
Proof. unfold id_is. cbn [PayLink.id new_row]. apply String.eqb_refl. Qed.

Lemma filter_id_none (i : string) (rows : list PayLink.t) :
  find (id_is i) rows = None ->
  filter (fun r => negb (id_is i r)) rows = rows.
Proof.
  induction rows as [|r rows IH]; simpl; [reflexivity|].
  destruct (id_is i r); simpl; [discriminate|]. intros H. now rewrite IH.
Qed.

Lemma find_filter_other (i j : string) (rows : list PayLink.t) :
  j <> i ->
  find (id_is j) (filter (fun r => negb (id_is i r)) rows)
  = find (id_is j) rows.
Proof.
  intros Hj. induction rows as [|r rows IH]; simpl; [reflexivity|].
  destruct (id_is i r) eqn:Hi; simpl.
  - destruct (id_is j r) eqn:Hjr; [|exact IH].
    unfold id_is in Hi, Hjr.
    apply String.eqb_eq in Hi. apply String.eqb_eq in Hjr. congruence.
  - now rewrite IH.
Qed.

(** X5.  [delete_pay_link] never fails.  Afterwards the id is unknown to
    [get_pay_link]; every other id resolves as before; nothing but the
    link table changes; and deleting an unknown id changes nothing at
    all. *)
Theorem delete_pay_link_forgets (w : World) (link_id : string) :
  exists w',
    delete_pay_link link_id w = (inr tt, w')
    /\ get_pay_link link_id w' = (inr None, w')
    /\ (forall j, j <> link_id ->
        fst (get_pay_link j w') = fst (get_pay_link j w))
    /\ settings w' = settings w
    /\ files w' = files w
    /\ invoices w' = invoices w
    /\ (get_pay_link link_id w = (inr None, w) -> w' = w).
Proof.
  eexists. split; [reflexivity|].
  unfold get_pay_link, fetchone_pay_links. cbn [pay_links with_pay_links fst].
  split; [now rewrite (find_filter_negb (id_is link_id))|].
  split; [intros j Hj; now rewrite find_filter_other|].
  split; [reflexivity|]. split; [reflexivity|]. split; [reflexivity|].
  intros H. injection H as H.
  rewrite (filter_id_none _ _ H). apply with_pay_links_same.
Qed.

(** X6.  Creating a link under an id that no row holds and then deleting
    the link that was returned gives back the world from before the
    creation. *)
Theorem create_then_delete {C : Collaborators} (data : CreatePayLinkData.t)
    (wallet_id short_hash : string) (w w1 : World) (link : PayLink.t) :
  get_pay_link (substring 0 6 short_hash) w = (inr None, w) ->
  create_pay_link data wallet_id short_hash w = (inr link, w1) ->
  delete_pay_link (PayLink.id link) w1 = (inr tt, w).
Proof.
  intros Hfresh Hrun.
  apply get_pay_link_find in Hfresh. destruct Hfresh as [Hfresh _].
  rewrite create_pay_link_run in Hrun. cbn zeta in Hrun.
  cbn [pay_links with_pay_links] in Hrun.
  rewrite find_append, Hfresh, id_is_new_row in Hrun.
  assert (Hw : (inr link, w1)
               = (inr (A := exn)
                    (new_row (substring 0 6 short_hash) wallet_id data),
                  with_pay_links
                    (pay_links w
                       ++ [new_row (substring 0 6 short_hash) wallet_id data])
                    w)).
  { rewrite <- Hrun. destruct (truthy _); [|reflexivity].
    destruct (check_lnaddress_format _); [|discriminate].
    destruct (filter _ _); [reflexivity | discriminate]. }
  injection Hw as -> ->.
  unfold delete_pay_link, execute_delete_pay_links.
  cbn [pay_links with_pay_links PayLink.id new_row].
  rewrite filter_app, (filter_id_none _ _ Hfresh). cbn [filter].
  rewrite id_is_new_row. cbn [negb]. rewrite app_nil_r. f_equal.
  now destruct w.
Qed.

Lemma create_then_delete_witness :
  delete_pay_link
    (PayLink.id (new_row "Zq3xT9" "wallet2" Demo.as_carol))
    (with_pay_links
       (pay_links Demo.shop ++ [new_row "Zq3xT9" "wallet2" Demo.as_carol])
       Demo.shop)
  = (inr tt, Demo.shop).
Proof.
  apply (create_then_delete (C := Demo.env) Demo.as_carol "wallet2"
           "Zq3xT9kLmN"); reflexivity.
Defined.

Lemma usernames_app (rows rows' : list PayLink.t) :
  usernames (rows ++ rows') = (usernames rows ++ usernames rows')%list.
Proof. unfold usernames. apply flat_map_app. Qed.

(** A username in use is the username of a row. *)
Lemma usernames_In (u : string) (rows : list PayLink.t) :
  In u (usernames rows) ->
  exists r, In r rows /\ PayLink.username r = Some u.
Proof.
  unfold usernames. rewrite in_flat_map. intros [r [Hin Hu]].
  exists r. split; [exact Hin|].
  destruct (PayLink.username r) as [[|c s]|]; simpl in Hu;
    try contradiction.
  destruct Hu as [<-|[]]. reflexivity.
Qed.

Lemma username_free (u : string) (rows : list PayLink.t) :
  filter (username_is u) rows = [] -> ~ In u (usernames rows).
Proof.
  intros Hf Hin. apply usernames_In in Hin. destruct Hin as [r [Hin Hu]].
  assert (Hp : username_is u r = true)
    by (unfold username_is; rewrite Hu; apply String.eqb_refl).
  exact (filter_nonempty _ _ _ Hin Hp Hf).
Qed.

Lemma NoDup_snoc {A : Type} (l : list A) (a : A) :
  NoDup l -> ~ In a l -> NoDup (l ++ [a]).
Proof.
  intros Hl Ha. induction Hl as [|x l Hx Hl IH]; simpl.
  - constructor; [intros [] | constructor].
  - constructor.
    + rewrite in_app_iff. intros [H|[H|[]]]; [now apply Hx|].
      subst. apply Ha. now left.
    + apply IH. intros H. apply Ha. now right.
Qed.

(** X7.  [create_pay_link] keeps the usernames in order: if no username is
    in use twice and every username in use passes the format rule, the
    same holds after the call, whether it inserts a row or raises. *)
Theorem create_keeps_usernames_ok {C : Collaborators}
    (data : CreatePayLinkData.t) (wallet_id short_hash : string) (w : World) :
  usernames_ok (pay_links w) ->
  usernames_ok
    (pay_links (snd (create_pay_link data wallet_id short_hash w))).
Proof.
  intros [Hnd Hfmt]. rewrite create_pay_link_run. cbn zeta.
  set (row := new_row (substring 0 6 short_hash) wallet_id data).
  assert (Hplain : truthy (CreatePayLinkData.username data) = false ->
                   usernames_ok (pay_links w ++ [row])).
  { intros Ht. unfold usernames_ok. rewrite usernames_app.
    unfold usernames at 2 4. cbn [flat_map PayLink.username row new_row].
    rewrite Ht. cbn [app]. rewrite app_nil_r. now split. }
  assert (Hnamed : truthy (CreatePayLinkData.username data) = true ->
                   check_lnaddress_format
                     (or_empty (CreatePayLinkData.username data)) = true ->
                   filter (username_is
                             (or_empty (CreatePayLinkData.username data)))
                     (pay_links w) = [] ->
                   usernames_ok (pay_links w ++ [row])).
  { intros Ht Hok Hfree. unfold usernames_ok. rewrite usernames_app.
    unfold usernames at 2 4. cbn [flat_map PayLink.username row new_row].
    rewrite Ht. cbn [app]. split.
    - apply NoDup_snoc; [exact Hnd | now apply username_free].
    - apply Forall_app. split; [exact Hfmt|]. now constructor. }
  cbn [pay_links with_pay_links].
  destruct (truthy (CreatePayLinkData.username data)) eqn:Ht.
  - destruct (check_lnaddress_format _) eqn:Hok; [|now split].
    destruct (filter _ (pay_links w)) eqn:Hfree; [|now split].
    destruct (find _ _); cbn [snd pay_links with_pay_links]; now apply Hnamed.
  - destruct (find _ _); cbn [snd pay_links with_pay_links]; now apply Hplain.
Qed.

Lemma create_keeps_usernames_ok_witness :
  usernames_ok (C := Demo.env)
    (pay_links (snd (create_pay_link (C := Demo.env) Demo.as_carol "wallet2"
                       "Zq3xT9kLmN" Demo.shop))).
Proof.
  apply (create_keeps_usernames_ok (C := Demo.env)).
  split.
  - repeat constructor; simpl; intuition discriminate.
  - repeat constructor.
Defined.

(** What [update_pay_link] computes. *)
Lemma update_pay_link_run {C : Collaborators} (link_id : string)
    (kwargs : Update.t) (w : World) :
  update_pay_link link_id kwargs w
  = let rows := update_rows (id_is link_id) (Update.apply kwargs) (pay_links w) in
    let updated :=
      if Update.is_empty kwargs then (inl OperationalError, w)
      else (inr (find (id_is link_id) rows), with_pay_links rows w) in
    match Update.username kwargs with
    | Some v =>
        if len (or_empty v) >? 0
        then
          if check_lnaddress_format (or_empty v)
          then
            match filter (username_is (or_empty v)) (pay_links w) with
            | [] => updated
            | _ :: _ => (inl username_taken, w)
            end
          else (inl FormatError, w)
        else updated
    | None => updated
    end.
Proof.
  unfold update_pay_link, bind, check_format, check_lnaddress_not_exists,
    fetchall_pay_links, execute_update_pay_links, fetchone_pay_links, ret,
    raise, bind.
  cbn zeta.
  destruct (Update.username kwargs) as [v|].
  - destruct (len (or_empty v) >? 0).
    + destruct (check_lnaddress_format _); [|reflexivity].
      destruct (filter _ (pay_links w)); [|reflexivity].
      now destruct (Update.is_empty kwargs).
    + now destruct (Update.is_empty kwargs).
  - now destruct (Update.is_empty kwargs).
Qed.

Lemma update_rows_find_same (i : string) (f : PayLink.t -> PayLink.t)
    (rows : list PayLink.t) :
  (forall r, PayLink.id (f r) = PayLink.id r) ->
  find (id_is i) (update_rows (id_is i) f rows)
  = option_map f (find (id_is i) rows).
Proof.
  intros Hid. rewrite find_update_rows
    by (intros r; unfold id_is; now rewrite Hid).
  destruct (find (id_is i) rows) as [l|] eqn:Hf; simpl; [|reflexivity].
  apply find_some in Hf. destruct Hf as [_ Hf]. now rewrite Hf.
Qed.

Lemma update_rows_find_other (i j : string) (f : PayLink.t -> PayLink.t)
    (rows : list PayLink.t) :
  (forall r, PayLink.id (f r) = PayLink.id r) ->
  j <> i ->
  find (id_is j) (update_rows (id_is i) f rows) = find (id_is j) rows.
Proof.
  intros Hid Hj. rewrite find_update_rows
    by (intros r; unfold id_is; now rewrite Hid).
  destruct (find (id_is j) rows) as [l|] eqn:Hf; simpl; [|reflexivity].
  apply find_id_is in Hf. unfold id_is. rewrite Hf.
  destruct (String.eqb_spec j i); [contradiction | reflexivity].
Qed.

(** A username that no row had is, after the UPDATE, the username of the
    updated link. *)
Lemma update_rows_find_username (i u : string) (f : PayLink.t -> PayLink.t)
    (rows : list PayLink.t) :
  (forall r, PayLink.username (f r) = Some u) ->
  find (username_is u) rows = None ->
  find (username_is u) (update_rows (id_is i) f rows)
  = option_map f (find (id_is i) rows).
Proof.
  intros Hu. induction rows as [|r rows IH]; simpl; [reflexivity|].
  destruct (username_is u r) eqn:Hr; [discriminate|]. intros Hnone.
  destruct (id_is i r); simpl.
  - unfold username_is at 1. now rewrite Hu, String.eqb_refl.
  - rewrite Hr. now apply IH.
Qed.

(** X8.  [update_pay_link] with at least one entry whose username entry,
    if any, passes its checks.  On a known link it returns the row with
    the entries written over the old values and the id, and every column
    without an entry, as before; that row is what [get_pay_link] returns
    afterwards, and what [get_address_data] returns for a new non-empty
    username; links with other ids are untouched.  On an unknown id it
    returns nothing and changes nothing. *)
Theorem update_pay_link_applies {C : Collaborators} (link_id : string)
    (kwargs : Update.t) (w : World) :
  Update.is_empty kwargs = false ->
  (forall v, Update.username kwargs = Some v -> len (or_empty v) > 0 ->
     check_lnaddress_format (or_empty v) = true
     /\ get_address_data (or_empty v) w = (inr None, w)) ->
  (forall l, get_pay_link link_id w = (inr (Some l), w) ->
     exists l' w',
       update_pay_link link_id kwargs w = (inr (Some l'), w')
       /\ l' = Update.apply kwargs l
       /\ PayLink.id l' = PayLink.id l
       /\ (Update.served_meta kwargs = None ->
           PayLink.served_meta l' = PayLink.served_meta l)
       /\ (Update.served_pr kwargs = None ->
           PayLink.served_pr l' = PayLink.served_pr l)
       /\ (forall d, Update.description kwargs = Some d ->
           PayLink.description l' = d)
       /\ get_pay_link link_id w' = (inr (Some l'), w')
       /\ (forall j, j <> link_id ->
           fst (get_pay_link j w') = fst (get_pay_link j w))
       /\ (forall u, Update.username kwargs = Some (Some u) -> u <> "" ->
           get_address_data u w' = (inr (Some l'), w')))
  /\ (get_pay_link link_id w = (inr None, w) ->
      update_pay_link link_id kwargs w = (inr None, w)).
Proof.
  intros Hne Hchk.
  assert (Hrun : update_pay_link link_id kwargs w
                 = (inr (find (id_is link_id)
                           (update_rows (id_is link_id) (Update.apply kwargs)
                              (pay_links w))),
                    with_pay_links
                      (update_rows (id_is link_id) (Update.apply kwargs)
                         (pay_links w)) w)).
  { rewrite update_pay_link_run. cbn zeta. rewrite Hne.
    destruct (Update.username kwargs) as [v|]; [|reflexivity].
    destruct (Z.gtb_spec (len (or_empty v)) 0) as [Hlen|_]; [|reflexivity].
    destruct (Hchk v eq_refl (Z.lt_gt _ _ Hlen)) as [Hfmt Hfree]. rewrite Hfmt.
    apply get_address_data_find in Hfree. destruct Hfree as [Hfree _].
    now rewrite (find_none_filter _ _ Hfree). }
  assert (Hid : forall r, PayLink.id (Update.apply kwargs r) = PayLink.id r)
    by reflexivity.
  split.
  - intros l Hl. apply get_pay_link_find in Hl. destruct Hl as [Hl _].
    exists (Update.apply kwargs l). eexists.
    rewrite Hrun, (update_rows_find_same _ _ _ Hid), Hl. cbn [option_map].
    split; [reflexivity|]. split; [reflexivity|]. split; [reflexivity|].
    split; [intros H; cbn; now rewrite H|].
    split; [intros H; cbn; now rewrite H|].
    split; [intros d H; cbn; now rewrite H|].
    unfold get_pay_link, get_address_data, fetchone_pay_links.
    cbn [pay_links with_pay_links fst].
    split; [now rewrite (update_rows_find_same _ _ _ Hid), Hl|].
    split; [intros j Hj; now rewrite (update_rows_find_other _ _ _ _ Hid Hj)|].
    intros u Hu Hnon.
    destruct (Hchk (Some u) Hu (len_nonempty u Hnon)) as [_ Hfree].
    apply get_address_data_find in Hfree. destruct Hfree as [Hfree _].
    cbn [or_empty] in Hfree.
    rewrite (update_rows_find_username link_id u); [now rewrite Hl| |exact Hfree].
    intros r. cbn. now rewrite Hu.
  - intros Hl. apply get_pay_link_find in Hl. destruct Hl as [Hl _].
    rewrite Hrun, (update_rows_find_same _ _ _ Hid), Hl.
    rewrite (update_rows_none _ _ _ Hl). cbn [option_map].
    now rewrite with_pay_links_same.
Qed.

(** The link [coffee] renamed to [dave] and described anew. *)
Lemma update_pay_link_applies_witness :
  let kwargs :=
    Update.Build None (Some "espresso") None None None None None None None
      None None None None None (Some (Some "dave")) None in
  (forall l, get_pay_link "usd001" Demo.shop = (inr (Some l), Demo.shop) ->
     exists l' w',
       update_pay_link (C := Demo.env) "usd001" kwargs Demo.shop
       = (inr (Some l'), w')
       /\ l' = Update.apply kwargs l
       /\ PayLink.id l' = PayLink.id l
       /\ (Update.served_meta kwargs = None ->
           PayLink.served_meta l' = PayLink.served_meta l)
       /\ (Update.served_pr kwargs = None ->
           PayLink.served_pr l' = PayLink.served_pr l)
       /\ (forall d, Update.description kwargs = Some d ->
           PayLink.description l' = d)
       /\ get_pay_link "usd001" w' = (inr (Some l'), w')
       /\ (forall j, j <> "usd001" ->
           fst (get_pay_link j w') = fst (get_pay_link j Demo.shop))
       /\ (forall u, Update.username kwargs = Some (Some u) -> u <> "" ->
           get_address_data u w' = (inr (Some l'), w')))
  /\ (get_pay_link "usd001" Demo.shop = (inr None, Demo.shop) ->
      update_pay_link (C := Demo.env) "usd001" kwargs Demo.shop
      = (inr None, Demo.shop)).
Proof.
  intros kwargs.
  apply (update_pay_link_applies (C := Demo.env) "usd001" kwargs Demo.shop).
  - reflexivity.
  - intros v Hv _. injection Hv as <-. split; reflexivity.
Defined.

Example update_rename :
  fst (update_pay_link (C := Demo.env) "usd001"
         (Update.Build None (Some "espresso") None None None None None None
            None None None None None None (Some (Some "dave")) None)
         Demo.shop)
  = inr (Some (PayLink.Build "usd001" "wallet1" "espresso" 1%float 5%float 0 0
                 None None None None None 10 (Some "USD") 100 (Some "dave")
                 None)).
Proof. reflexivity. Qed.

Lemma truthy_len (v : option string) :
  truthy v = (len (or_empty v) >? 0).
Proof.
  destruct v as [[|c s]|]; reflexivity.
Qed.

Lemma update_rows_absent (i : string) (f : PayLink.t -> PayLink.t)
    (rows : list PayLink.t) :
  ~ In i (map PayLink.id rows) -> update_rows (id_is i) f rows = rows.
Proof.
  intros Hi. apply update_rows_none.
  destruct (find (id_is i) rows) as [l|] eqn:Hf; [|reflexivity].
  exfalso. apply Hi. pose proof (find_id_is _ _ _ Hf) as <-.
  apply in_map. apply find_some in Hf. tauto.
Qed.

Lemma usernames_update_same (p : PayLink.t -> bool)
    (f : PayLink.t -> PayLink.t) (rows : list PayLink.t) :
  (forall r, PayLink.username (f r) = PayLink.username r) ->
  usernames (update_rows p f rows) = usernames rows.
Proof.
  intros Hf. induction rows as [|r rows IH]; simpl; [reflexivity|].
  fold (usernames (update_rows p f rows)). fold (usernames rows).
  rewrite IH. destruct (p r); [now rewrite Hf | reflexivity].
Qed.

(** The usernames after an UPDATE that gives the rows of one id the
    username [v], in a table where ids are unique. *)
Lemma usernames_update_set (i : string) (f : PayLink.t -> PayLink.t)
    (v : option string) (rows : list PayLink.t) :
  (forall r, PayLink.username (f r) = v) ->
  NoDup (map PayLink.id rows) ->
  NoDup (usernames rows) ->
  (truthy v = true -> ~ In (or_empty v) (usernames rows)) ->
  NoDup (usernames (update_rows (id_is i) f rows))
  /\ incl (usernames (update_rows (id_is i) f rows))
       ((if truthy v then [or_empty v] else []) ++ usernames rows).
Proof.
  intros Hf. induction rows as [|r rows IH]; intros Hids Hnd Hfree.
  - split; [constructor | intros x []].
  - simpl in Hids. inversion Hids as [|? ? Hr Hrest]; subst.
    change (usernames (r :: rows))
      with ((if truthy (PayLink.username r)
             then [or_empty (PayLink.username r)] else [])
              ++ usernames rows)%list in *.
    cbn [update_rows map].
    change (map (fun r0 => if id_is i r0 then f r0 else r0) rows)
      with (update_rows (id_is i) f rows).
    destruct (id_is i r) eqn:Hi.
    + apply String.eqb_eq in Hi. subst i.
      rewrite (update_rows_absent _ _ _ Hr).
      change (usernames (f r :: rows))
        with ((if truthy (PayLink.username (f r))
               then [or_empty (PayLink.username (f r))] else [])
                ++ usernames rows)%list.
      rewrite Hf. split.
      * destruct (truthy v) eqn:Hv; cbn [app].
        -- constructor.
           ++ intros Hin. apply (Hfree eq_refl). apply in_or_app. now right.
           ++ now apply NoDup_app_remove_l in Hnd.
        -- now apply NoDup_app_remove_l in Hnd.
      * intros x Hx. apply in_app_or in Hx. apply in_or_app.
        destruct Hx as [Hx|Hx]; [now left|]. right. apply in_or_app. now right.
    + change (usernames (r :: update_rows (id_is i) f rows))
        with ((if truthy (PayLink.username r)
               then [or_empty (PayLink.username r)] else [])
                ++ usernames (update_rows (id_is i) f rows))%list.
      assert (Hnd' : NoDup (usernames rows))
        by now apply NoDup_app_remove_l in Hnd.
      assert (Hfree' : truthy v = true -> ~ In (or_empty v) (usernames rows)).
      { intros Hv Hin. apply (Hfree Hv). apply in_or_app. now right. }
      destruct (IH Hrest Hnd' Hfree') as [IH1 IH2].
      split.
      * destruct (truthy (PayLink.username r)) eqn:Hu; cbn [app]; [|exact IH1].
        constructor; [|exact IH1].
        intros Hin. apply IH2 in Hin. apply in_app_or in Hin.
        cbn [app] in Hnd. inversion Hnd as [|? ? Hnotin _]; subst.
        destruct Hin as [Hin|Hin]; [|now apply Hnotin].
        destruct (truthy v) eqn:Hv; [|destruct Hin].
        destruct Hin as [Hin|[]].
        apply (Hfree eq_refl). rewrite Hin. cbn [app]. now left.
      * intros x Hx. apply in_app_or in Hx. apply in_or_app.
        destruct Hx as [Hx|Hx].
        -- right. apply in_or_app. now left.
        -- apply IH2 in Hx. apply in_app_or in Hx.
           destruct Hx as [Hx|Hx]; [now left|]. right. apply in_or_app.
           now right.
Qed.

(** X9.  In a table where ids are unique, [update_pay_link] keeps the
    usernames in order: if no username is in use twice and every username
    in use passes the format rule, the same holds after the call, whether
    it updates a row or raises. *)
Theorem update_keeps_usernames_ok {C : Collaborators} (link_id : string)
    (kwargs : Update.t) (w : World) :
  NoDup (map PayLink.id (pay_links w)) ->
  usernames_ok (pay_links w) ->
  usernames_ok (pay_links (snd (update_pay_link link_id kwargs w))).
Proof.
  intros Hids [Hnd Hfmt]. rewrite update_pay_link_run. cbn zeta.
  assert (Hkeep : Update.username kwargs = None ->
            usernames_ok
              (update_rows (id_is link_id) (Update.apply kwargs) (pay_links w))).
  { intros Hn. unfold usernames_ok. rewrite usernames_update_same; [now split|].
    intros r. cbn. now rewrite Hn. }
  assert (Hset : forall v, Update.username kwargs = Some v ->
            (truthy v = true ->
             check_lnaddress_format (or_empty v) = true
             /\ filter (username_is (or_empty v)) (pay_links w) = []) ->
            usernames_ok
              (update_rows (id_is link_id) (Update.apply kwargs) (pay_links w))).
  { intros v Hv Hchk.
    destruct (usernames_update_set link_id (Update.apply kwargs) v (pay_links w))
      as [H1 H2]; try assumption.
    - intros r. cbn. now rewrite Hv.
    - intros Ht. apply username_free. now apply Hchk.
    - split; [exact H1|]. apply (incl_Forall H2). apply Forall_app.
      split; [|exact Hfmt].
      destruct (truthy v) eqn:Ht; constructor; [|constructor].
      now apply Hchk. }
  destruct (Update.username kwargs) as [v|] eqn:Hv.
  - rewrite <- (truthy_len v).
    destruct (truthy v) eqn:Ht.
    + destruct (check_lnaddress_format _) eqn:Hok; [|now split].
      destruct (filter _ (pay_links w)) eqn:Hfree; [|now split].
      destruct (Update.is_empty kwargs); [now split|].
      cbn [snd pay_links with_pay_links]. apply (Hset v eq_refl).
      intros _. now split.
    + destruct (Update.is_empty kwargs); [now split|].
      cbn [snd pay_links with_pay_links]. apply (Hset v eq_refl).
      intros H. congruence.
  - destruct (Update.is_empty kwargs); [now split|].
    cbn [snd pay_links with_pay_links]. now apply Hkeep.
Qed.

Lemma update_keeps_usernames_ok_witness :
  usernames_ok (C := Demo.env)
    (pay_links
       (snd (update_pay_link (C := Demo.env) "usd001"
               (Update.Build None None None None None None None None None
                  None None None None None (Some (Some "dave")) None)
               Demo.shop))).
Proof.
  apply (update_keeps_usernames_ok (C := Demo.env)).
  - repeat constructor; simpl; intuition discriminate.
  - split.
    + repeat constructor; simpl; intuition discriminate.
    + repeat constructor.
Defined.

(* ------------------------------------------------------------------ *)
(** * The links of a set of wallets *)
(* ------------------------------------------------------------------ *)

Lemma insert_by_id_perm (r : PayLink.t) (rows : list PayLink.t) :
  Permutation (insert_by_id r rows) (r :: rows).
Proof.
  induction rows as [|x rows IH]; simpl; [reflexivity|].
  destruct (String.leb _ _); [reflexivity|].
  rewrite IH. apply perm_swap.
Qed.

Lemma order_by_id_perm (rows : list PayLink.t) :
  Permutation (order_by_id rows) rows.
Proof.
  induction rows as [|r rows IH]; simpl; [reflexivity|].
  rewrite insert_by_id_perm. now constructor.
Qed.

Lemma insert_by_id_sorted (r : PayLink.t) (rows : list PayLink.t) :
  Sorted id_le rows -> Sorted id_le (insert_by_id r rows).
Proof.
  induction rows as [|x rows IH]; intros Hs; simpl.
  - repeat constructor.
  - destruct (String.leb (PayLink.id r) (PayLink.id x)) eqn:Hle.
    + constructor; [exact Hs | now constructor].
    + inversion Hs as [|? ? Hs' Hhd]; subst.
      constructor; [now apply IH|].
      assert (Hxr : id_le x r).
      { destruct (String.leb_total (PayLink.id r) (PayLink.id x)) as [H|H];
          [congruence | exact H]. }
      destruct rows as [|y rows]; simpl; [now constructor|].
      destruct (String.leb (PayLink.id r) (PayLink.id y));
        constructor; [exact Hxr | now inversion Hhd].
Qed.

Lemma order_by_id_sorted (rows : list PayLink.t) :
  Sorted id_le (order_by_id rows).
Proof.
  induction rows as [|r rows IH]; simpl; [constructor|].
  now apply insert_by_id_sorted.
Qed.

Lemma wallet_in_In (wallet_ids : list string) (r : PayLink.t) :
  wallet_in wallet_ids r = true <-> In (PayLink.wallet r) wallet_ids.
Proof.
  unfold wallet_in. rewrite existsb_exists. split.
  - intros [x [Hin Hx]]. apply String.eqb_eq in Hx. now subst.
  - intros Hin. exists (PayLink.wallet r). split; [exact Hin|].
    apply String.eqb_refl.
Qed.

(** X10.  [get_pay_links] never fails and writes nothing.  For a non-empty
    list of wallet ids it returns exactly the rows of the table whose
    wallet is in the list, each as often as the table holds it, in
    ascending order of id; a single wallet id given as a string selects the
    rows of that wallet. *)
Theorem get_pay_links_selects (wallet_ids : string + list string) (w : World) :
  wallet_ids <> inr [] ->
  let wanted :=
    match wallet_ids with
    | inl one => [one]
    | inr many => many
    end in
  exists rows,
    get_pay_links wallet_ids w = (inr rows, w)
    /\ Permutation rows (filter (wallet_in wanted) (pay_links w))
    /\ (forall l, In l rows <->
                  In l (pay_links w) /\ In (PayLink.wallet l) wanted)
    /\ Sorted id_le rows.
Proof.
  intros _ wanted. eexists. split; [reflexivity|].
  fold wanted. split; [apply order_by_id_perm|]. split.
  - intros l. rewrite <- wallet_in_In, <- filter_In. split; intros H.
    + eapply Permutation_in; [apply order_by_id_perm | exact H].
    + eapply Permutation_in; [symmetry; apply order_by_id_perm | exact H].
  - apply order_by_id_sorted.
Qed.

Lemma get_pay_links_selects_witness :
  exists rows,
    get_pay_links (inl "wallet1") Demo.shop = (inr rows, Demo.shop)
    /\ Permutation rows (filter (wallet_in ["wallet1"]) (pay_links Demo.shop))
    /\ (forall l, In l rows <->
                  In l (pay_links Demo.shop)
                  /\ In (PayLink.wallet l) ["wallet1"])
    /\ Sorted id_le rows.
Proof.
  apply (get_pay_links_selects (inl "wallet1") Demo.shop). discriminate.
Defined.

Example get_pay_links_wallet1 :
  fst (get_pay_links (inr ["wallet9"; "wallet1"]) Demo.shop)
  = inr [Demo.tips; Demo.coffee].
Proof. reflexivity. Qed.

(* ------------------------------------------------------------------ *)
(** * The counters over many requests *)
(* ------------------------------------------------------------------ *)

Lemma handle_pay_links {C : Collaborators} (link_id : string) (h : hit)
    (w : World) (l : PayLink.t) :
  find (id_is link_id) (pay_links w) = Some l ->
  pay_links (snd (handle link_id h w))
  = pay_links (incremented link_id
                 match h with PayRequest _ => meta_1 | Callback _ => pr_1 end
                 w).
Proof.
  intros Hl. destruct h as [request|request]; cbn [handle].
  - now rewrite api_lnurl_response_world.
  - now apply api_lnurl_callback_pay_links with (l := l).
Qed.

Lemma add_counters_step (h : hit) (m p : Z) (l : PayLink.t) :
  PayLink.add_served_pr p
    (PayLink.add_served_meta m
       (Increment.apply
          match h with PayRequest _ => meta_1 | Callback _ => pr_1 end l))
  = PayLink.add_served_pr
      (match h with PayRequest _ => p | Callback _ => 1 + p end)
      (PayLink.add_served_meta
         (match h with PayRequest _ => 1 + m | Callback _ => m end) l).
Proof.
  destruct l, h; unfold PayLink.add_served_pr, PayLink.add_served_meta;
    cbn -[Z.add]; f_equal; lia.
Qed.

(** X11.  Any sequence of direct-id Pay Requests and callbacks for a known
    link, served one after the other and whatever each of them answers,
    leaves the link with [served_meta] raised by the number of Pay
    Requests, [served_pr] raised by the number of callbacks, and every
    other column as it was; links with other ids are as they were. *)
Theorem counters_count_requests {C : Collaborators} (hits : list hit)
    (link_id : string) (w : World) (l : PayLink.t) :
  get_pay_link link_id w = (inr (Some l), w) ->
  let w' := serve_all (map (handle link_id) hits) w in
  let l' :=
    PayLink.add_served_pr (callbacks hits)
      (PayLink.add_served_meta (pay_requests hits) l) in
  get_pay_link link_id w' = (inr (Some l'), w')
  /\ PayLink.served_meta l' = PayLink.served_meta l + pay_requests hits
  /\ PayLink.served_pr l' = PayLink.served_pr l + callbacks hits
  /\ (forall j, j <> link_id ->
      fst (get_pay_link j w') = fst (get_pay_link j w)).
Proof.
  revert w l. induction hits as [|h hits IH]; intros w l Hl; cbn zeta.
  - cbn [map serve_all pay_requests callbacks].
    split; [|split; [cbn; lia | split; [cbn; lia | reflexivity]]].
    rewrite Hl. f_equal. f_equal. f_equal. destruct l.
    unfold PayLink.add_served_pr, PayLink.add_served_meta. cbn.
    f_equal; lia.
  - apply get_pay_link_find in Hl. destruct Hl as [Hl _].
    cbn [map serve_all].
    set (k := match h with PayRequest _ => meta_1 | Callback _ => pr_1 end).
    set (w1 := snd (handle link_id h w)).
    assert (Hw1 : pay_links w1 = pay_links (incremented link_id k w))
      by (subst w1 k; now apply handle_pay_links with (l := l)).
    assert (Hl1 : get_pay_link link_id w1
                  = (inr (Some (Increment.apply k l)), w1)).
    { unfold get_pay_link, fetchone_pay_links.
      now rewrite Hw1, incremented_same, Hl. }
    destruct (IH w1 (Increment.apply k l) Hl1) as [H1 [_ [_ H4]]].
    assert (Heq : PayLink.add_served_pr (callbacks hits)
                    (PayLink.add_served_meta (pay_requests hits)
                       (Increment.apply k l))
                  = PayLink.add_served_pr (callbacks (h :: hits))
                      (PayLink.add_served_meta (pay_requests (h :: hits)) l)).
    { subst k. rewrite add_counters_step. now destruct h. }
    rewrite Heq in H1.
    split; [exact H1|]. split; [reflexivity|]. split; [reflexivity|].
    intros j Hj. rewrite (H4 j Hj).
    unfold get_pay_link, fetchone_pay_links. cbn [fst].
    now rewrite Hw1, incremented_other by exact Hj.
Qed.

Lemma counters_count_requests_witness :
  let hits := [PayRequest (Demo.get []);
               Callback (Demo.get [("amount", "5000")]);
               Callback (Demo.get [("amount", "15000")])] in
  let w' := serve_all (map (handle (C := Demo.env) "abc123") hits) Demo.shop in
  let l' :=
    PayLink.add_served_pr (callbacks hits)
      (PayLink.add_served_meta (pay_requests hits) Demo.tips) in
  get_pay_link "abc123" w' = (inr (Some l'), w')
  /\ PayLink.served_meta l' = PayLink.served_meta Demo.tips + pay_requests hits
  /\ PayLink.served_pr l' = PayLink.served_pr Demo.tips + callbacks hits
  /\ (forall j, j <> "abc123" ->
      fst (get_pay_link j w') = fst (get_pay_link j Demo.shop)).
Proof.
  intros hits.
  apply (counters_count_requests (C := Demo.env) hits "abc123" Demo.shop
           Demo.tips).
  reflexivity.
Defined.

(* ------------------------------------------------------------------ *)
(** * The invoice of the callback *)
(* ------------------------------------------------------------------ *)

(** X12.  A callback that passes every check and whose invoice the payment
    service grants: the answer carries the payment request and is not an
    error payload; exactly one invoice is requested, for the wallet of the
    link, with the description as memo, the link id in its extra bag, and
    the amount in satoshis that [int(amount / 1000)] gives. *)
Theorem callback_requests_one_invoice {C : Collaborators} (w : World)
    (request : Request) (link_id : string) (l : PayLink.t) (rate : float)
    (a sats : Z) (payment_hash payment_request : string) :
  get_pay_link link_id w = (inr (Some l), w) ->
  fiat_rate l = Some rate ->
  amount_received request = Some a ->
  int_lt_num a (fst (callback_bounds l rate)) = false ->
  int_gt_num a (snd (callback_bounds l rate)) = false ->
  len (or_empty (query_get "comment" (query_params request)))
  <= PayLink.comment_chars l ->
  sats_of_msat a = inr sats ->
  create_invoice
    (callback_create_invoice request (PayLink.add_served_pr 1 l) sats)
  = Some (payment_hash, payment_request) ->
  exists d w' inv,
    api_lnurl_callback request link_id w = (inr d, w')
    /\ dict_get "pr" d = Some (VStr payment_request)
    /\ dict_get "routes" d = Some (VList [])
    /\ is_error_payload d = false
    /\ invoices w' = (invoices w ++ [inv])%list
    /\ wallet_id inv = PayLink.wallet l
    /\ memo inv = PayLink.description l
    /\ dict_get "link" (extra inv) = Some (VStr link_id)
    /\ amount inv = sats.
Proof.
  intros Hl Hf Ha Hlo Hhi Hc Hs Hinv.
  apply get_pay_link_find in Hl. destruct Hl as [Hl _].
  pose proof (find_id_is _ _ _ Hl) as Hid.
  rewrite (api_lnurl_callback_found _ _ _ _ Hl). cbn zeta.
  rewrite Hf, Ha, Hlo, Hhi.
  rewrite callback_invoice_accepts by exact Hc. rewrite Hs. cbn zeta.
  rewrite Hinv.
  eexists. eexists. eexists. split; [reflexivity|].
  split; [now destruct (success_action _ _)|].
  split; [now destruct (success_action _ _)|].
  split; [apply pay_action_not_error|].
  split; [reflexivity|]. split; [reflexivity|]. split; [reflexivity|].
  split; [cbn; now rewrite Hid | reflexivity].
Qed.

(** 15999 millisatoshi give an invoice of 15 satoshis. *)
Lemma callback_requests_one_invoice_witness :
  exists d w' inv,
    api_lnurl_callback (C := Demo.env) (Demo.get [("amount", "15999")])
      "abc123" Demo.shop = (inr d, w')
    /\ dict_get "pr" d = Some (VStr "lnbc-tips")
    /\ dict_get "routes" d = Some (VList [])
    /\ is_error_payload d = false
    /\ invoices w' = (invoices Demo.shop ++ [inv])%list
    /\ wallet_id inv = PayLink.wallet Demo.tips
    /\ memo inv = PayLink.description Demo.tips
    /\ dict_get "link" (extra inv) = Some (VStr "abc123")
    /\ amount inv = 15.
Proof.
  apply (callback_requests_one_invoice (C := Demo.env) Demo.shop
           (Demo.get [("amount", "15999")]) "abc123" Demo.tips 1%float 15999
           15 "hash-tips" "lnbc-tips");
    reflexivity.
Defined.



Example callback_no_amount :
  fst (api_lnurl_callback (C := Demo.env) (Demo.get []) "abc123" Demo.shop)
  = inr (LnurlErrorResponse "Amount 0 is smaller than minimum 10000.0.").
Proof. reflexivity. Qed.

Example callback_decimal_amount :
  fst (api_lnurl_callback (C := Demo.env) (Demo.get [("amount", "12.5")])
         "abc123" Demo.shop)
  = inl ValueError.
Proof. reflexivity. Qed.

(** X14.  The callback never touches the settings or the files, never
    adds or removes a link, and requests at most one invoice, after those
    already requested. *)
Theorem callback_frame {C : Collaborators} (w : World) (request : Request)
    (link_id : string) :
  let w' := snd (api_lnurl_callback request link_id w) in
  settings w' = settings w
  /\ files w' = files w
  /\ length (pay_links w') = length (pay_links w)
  /\ map PayLink.id (pay_links w') = map PayLink.id (pay_links w)
  /\ (invoices w' = invoices w
      \/ exists inv, invoices w' = (invoices w ++ [inv])%list).
Proof.
  cbn zeta. unfold api_lnurl_callback, bind.
  rewrite increment_pay_link_run by reflexivity.
  assert (Hids : map PayLink.id (pay_links (incremented link_id pr_1 w))
                 = map PayLink.id (pay_links w)).
  { unfold incremented, update_rows. cbn [pay_links with_pay_links].
    rewrite map_map. apply map_ext. intros r. now destruct (id_is link_id r). }
  assert (Hlen : length (pay_links (incremented link_id pr_1 w))
                 = length (pay_links w))
    by apply update_rows_length.
  change (Increment.Build None (Some 1)) with pr_1.
  destruct (option_map _ _) as [l|]; [|cbn; tauto].
  unfold call, amount_of, callback_invoice, request_invoice, lift, ret, raise,
    bind.
  destruct (fiat_rate l) as [rate|]; [|cbn; tauto].
  destruct (callback_bounds l rate) as [lo hi].
  destruct (amount_received request) as [a|]; [|cbn; tauto].
  destruct (int_lt_num a lo); [cbn; tauto|].
  destruct (int_gt_num a hi); [cbn; tauto|].
  destruct (_ >? _).
  - destruct (query_get _ _); cbn; tauto.
  - destruct (sats_of_msat a) as [e|sats]; [cbn; tauto|].
    match goal with
    | |- context [create_invoice ?i] =>
        destruct (create_invoice i) as [[h pr]|]
    end; cbn [snd];
      (split; [reflexivity|]); (split; [reflexivity|]);
      (split; [exact Hlen|]); (split; [exact Hids|]); right; eexists;
      reflexivity.
Qed.

(** X15.  The older handler of line 43 checks nothing about the amount:
    for a known link and a request with a host, whatever the bounds of the
    link, every amount that [int(amount / 1000)] turns into satoshis gets
    an invoice request for that many satoshis and the wallet of the link;
    the link table, and so both counters, stay as they were. *)
Theorem older_callback_checks_no_bounds {C : Collaborators} (w : World)
    (request : Request) (link_id : string) (l : PayLink.t) (a sats : Z) :
  get_pay_link link_id w = (inr (Some l), w) ->
  netloc (url request) <> "" ->
  sats_of_msat a = inr sats ->
  exists inv,
    amount inv = sats
    /\ wallet_id inv = PayLink.wallet l
    /\ memo inv = PayLink.description l
    /\ snd (LnAddress.api_lnurl_callback request link_id a w)
       = with_invoices (invoices w ++ [inv]) w
    /\ pay_links (snd (LnAddress.api_lnurl_callback request link_id a w))
       = pay_links w
    /\ fst (LnAddress.api_lnurl_callback request link_id a w)
       = match create_invoice inv with
         | Some (payment_hash, payment_request) =>
             inr (LnurlPayActionResponse payment_request
                    (success_action l payment_hash))
         | None => inl CollaboratorError
         end.
Proof.
  intros Hl Hhost Hs. unfold LnAddress.api_lnurl_callback.
  rewrite (bind_ok _ _ _ _ _ Hl).
  destruct (String.eqb_spec (netloc (url request)) "") as [He|_];
    [contradiction|].
  unfold bind, py_assert, lift, request_invoice, ret. cbn [negb].
  rewrite Hs.
  eexists. split; [|split; [|split]].
  4: { destruct (create_invoice _) as [[h pr]|] eqn:E; cbn [fst snd];
       (split; [reflexivity|]); (split; [reflexivity|]); now rewrite E. }
  - reflexivity.
  - reflexivity.
  - reflexivity.
Qed.

(** One millisatoshi against a minimum of 10 satoshis: an invoice of 0
    satoshis is requested. *)
Lemma older_callback_checks_no_bounds_witness :
  exists inv,
    amount inv = 0
    /\ wallet_id inv = PayLink.wallet Demo.tips
    /\ memo inv = PayLink.description Demo.tips
    /\ snd (LnAddress.api_lnurl_callback (C := Demo.env) (Demo.get [])
              "abc123" 1 Demo.shop)
       = with_invoices (invoices Demo.shop ++ [inv]) Demo.shop
    /\ pay_links (snd (LnAddress.api_lnurl_callback (C := Demo.env)
                         (Demo.get []) "abc123" 1 Demo.shop))
       = pay_links Demo.shop
    /\ fst (LnAddress.api_lnurl_callback (C := Demo.env) (Demo.get [])
              "abc123" 1 Demo.shop)
       = match create_invoice (Collaborators := Demo.env) inv with
         | Some (payment_hash, payment_request) =>
             inr (LnurlPayActionResponse payment_request
                    (success_action (Collaborators := Demo.env) Demo.tips
                       payment_hash))
         | None => inl CollaboratorError
         end.
Proof.
  apply (older_callback_checks_no_bounds (C := Demo.env) Demo.shop
           (Demo.get []) "abc123" Demo.tips 1 0);
    [reflexivity | discriminate | reflexivity].
Defined.

(** [int(amount / 1000)] goes through a float: 2^63 millisatoshi give
    9223372036854776 satoshis, one more than the integer quotient, and an
    amount of 401 digits raises [OverflowError]. *)
Example sats_of_large_amounts :
  sats_of_msat (2 ^ 63) = inr 9223372036854776
  /\ 2 ^ 63 / 1000 = 9223372036854775
  /\ sats_of_msat (10 ^ 400) = inl OverflowError
  /\ fst (LnAddress.api_lnurl_callback (C := Demo.env) (Demo.get [])
            "abc123" (10 ^ 400) Demo.shop)
     = inl OverflowError.
Proof. repeat split. Qed.

(* ------------------------------------------------------------------ *)
(** * Step 1 against step 2 *)
(* ------------------------------------------------------------------ *)

(** The address form truncates the float product: a maximum of 2.01
    satoshis is advertised as 2009 millisatoshi, and 72057594037929 times
    1000 is not a float. *)
Example address_bounds_truncated :
  fst (lnurl_response (C := Demo.env) "elsa" "pay.example" (Demo.get [])
         Demo.kiosk)
  = inr [("tag", VStr "payRequest");
         ("callback", VStr "https://pay.example/api/v1/lnurl/cb/sat002");
         ("metadata", VStr "drop");
         ("minSendable", VInt 10); ("maxSendable", VInt 2009)]
  /\ int_of_num (72057594037929 * 1000)%float = inr 72057594037928992.
Proof. repeat split. Qed.

(** X18.  The comment length advertised in step 1 is the one enforced in
    step 2.  The direct-id Pay Request carries [commentAllowed] exactly
    when [comment_chars] is positive, with that value.  The comment check
    of the callback then refuses a non-empty comment if and only if there
    is no [commentAllowed] or the comment is longer than it. *)
Theorem comment_allowed_is_enforced {C : Collaborators} (w w2 : World)
    (request request2 : Request) (link_id : string) (l : PayLink.t)
    (rate : float) (lo hi a : Z) (c : string) :
  get_pay_link link_id w = (inr (Some l), w) ->
  fiat_rate l = Some rate ->
  round (PayLink.min l * rate)%float = inr lo ->
  round (PayLink.max l * rate)%float = inr hi ->
  query_get "comment" (query_params request2) = Some c ->
  c <> "" ->
  exists d,
    fst (api_lnurl_response request link_id w) = inr d
    /\ dict_get "commentAllowed" d
       = (if PayLink.comment_chars l >? 0
          then Some (VInt (PayLink.comment_chars l)) else None)
    /\ (callback_invoice request2 (PayLink.add_served_pr 1 l) a w2
        = (inr (LnurlErrorResponse
                  (reason_comment (len c) (PayLink.comment_chars l))), w2)
        <-> match dict_get "commentAllowed" d with
            | Some (VInt n) => len c > n
            | _ => True
            end).
Proof.
  intros Hl Hf Hlo Hhi Hc Hne.
  apply get_pay_link_find in Hl. destruct Hl as [Hl _].
  pose proof (len_nonempty c Hne) as Hpos.
  unfold api_lnurl_response, bind.
  rewrite increment_pay_link_run by reflexivity. rewrite Hl.
  cbn [option_map Increment.apply Increment.served_meta Increment.served_pr].
  change (fiat_rate (PayLink.add_served_meta 1 l)) with (fiat_rate l).
  rewrite Hf. unfold call, lift, ret.
  change (PayLink.min (PayLink.add_served_meta 1 l)) with (PayLink.min l).
  change (PayLink.max (PayLink.add_served_meta 1 l)) with (PayLink.max l).
  rewrite Hlo, Hhi.
  change (PayLink.comment_chars (PayLink.add_served_meta 1 l))
    with (PayLink.comment_chars l).
  assert (Hrej : len c > PayLink.comment_chars l ->
                 callback_invoice request2 (PayLink.add_served_pr 1 l) a w2
                 = (inr (LnurlErrorResponse
                           (reason_comment (len c) (PayLink.comment_chars l))),
                    w2))
    by (intros H;
        exact (callback_invoice_rejects w2 request2
                 (PayLink.add_served_pr 1 l) a c Hc H)).
  assert (Hacc : len c <= PayLink.comment_chars l ->
                 callback_invoice request2 (PayLink.add_served_pr 1 l) a w2
                 <> (inr (LnurlErrorResponse
                            (reason_comment (len c) (PayLink.comment_chars l))),
                     w2)).
  { intros H. rewrite callback_invoice_accepts by (rewrite Hc; exact H).
    destruct (sats_of_msat a) as [e|sats]; [discriminate|].
    cbn zeta. destruct (create_invoice _) as [[h pr]|]; [|discriminate].
    destruct (success_action _ _); discriminate. }
  destruct (Z.gtb_spec (PayLink.comment_chars l) 0) as [Hcc|Hcc];
    eexists; (split; [reflexivity|]); (split; [reflexivity|]); cbn [dict_get dict_set String.eqb Ascii.eqb Bool.eqb];
    cbn.
  - split; [|exact Hrej]. intros H.
    destruct (Z_le_gt_dec (len c) (PayLink.comment_chars l)) as [Hle|Hgt];
      [|exact Hgt]. now apply Hacc in Hle.
  - split; [trivial|]. intros _. apply Hrej. lia.
Qed.

Lemma comment_allowed_is_enforced_witness :
  exists d,
    fst (api_lnurl_response (C := Demo.env) (Demo.get []) "usd001" Demo.shop)
    = inr d
    /\ dict_get "commentAllowed" d
       = (if PayLink.comment_chars Demo.coffee >? 0
          then Some (VInt (PayLink.comment_chars Demo.coffee)) else None)
    /\ (callback_invoice (C := Demo.env)
          (Demo.get [("amount", "100000000"); ("comment", "hello world")])
          (PayLink.add_served_pr 1 Demo.coffee) 100000000 Demo.shop
        = (inr (LnurlErrorResponse
                  (reason_comment (len "hello world")
                     (PayLink.comment_chars Demo.coffee))), Demo.shop)
        <-> match dict_get "commentAllowed" d with
            | Some (VInt n) => len "hello world" > n
            | _ => True
            end).
Proof.
  apply (comment_allowed_is_enforced (C := Demo.env) Demo.shop Demo.shop
           (Demo.get [])
           (Demo.get [("amount", "100000000"); ("comment", "hello world")])
           "usd001" Demo.coffee 50000%float 50000 250000 100000000
           "hello world");
    try reflexivity; discriminate.
Defined.

(* ------------------------------------------------------------------ *)
(** * Reading back a printed amount *)
(* ------------------------------------------------------------------ *)

Lemma digits_of_uint_acc (d : Decimal.uint) (acc : positive) :
  digits (Z.pos acc) (NilEmpty.string_of_uint d)
  = Some (Z.pos (Pos.of_uint_acc d acc)).
Proof.
  revert acc. induction d; intros acc; cbn [NilEmpty.string_of_uint digits];
    [reflexivity | ..];
    cbn [Pos.of_uint_acc]; rewrite <- IHd;
    match goal with
    | |- context [digit_of ?c] =>
        let v := eval vm_compute in (digit_of c) in
        change (digit_of c) with v
    end;
    cbv iota beta; f_equal; lia.
Qed.

Lemma digits_of_uint (d : Decimal.uint) :
  digits 0 (NilEmpty.string_of_uint d) = Some (Z.of_N (Pos.of_uint d)).
Proof.
  induction d; cbn [NilEmpty.string_of_uint digits Pos.of_uint];
    [reflexivity | ..];
    match goal with
    | |- context [digit_of ?c] =>
        let v := eval vm_compute in (digit_of c) in
        change (digit_of c) with v
    end;
    cbv iota beta; [exact IHd | apply digits_of_uint_acc ..].
Qed.

Lemma skip_left_of_uint (d : Decimal.uint) :
  skip_left (NilEmpty.string_of_uint d) = NilEmpty.string_of_uint d.
Proof. now destruct d. Qed.

Lemma skip_right_of_uint (d : Decimal.uint) :
  skip_right (NilEmpty.string_of_uint d) = NilEmpty.string_of_uint d.
Proof.
  induction d; cbn [NilEmpty.string_of_uint skip_right]; [reflexivity | ..];
    rewrite IHd; now destruct (NilEmpty.string_of_uint d).
Qed.

Lemma unsigned_int_of_uint (d : Decimal.uint) :
  d <> Decimal.Nil ->
  unsigned_int (NilEmpty.string_of_uint d)
  = within max_str_digits (NilEmpty.string_of_uint d)
      (Z.of_N (Pos.of_uint d)).
Proof.
  intros Hd. unfold unsigned_int, within.
  assert (Hs : starts_with_digit (NilEmpty.string_of_uint d) = true)
    by (destruct d; [contradiction | reflexivity ..]).
  rewrite Hs, digits_of_uint. cbn [andb].
  now destruct (_ <=? _)%nat.
Qed.

Lemma int_of_str_of_uint (d : Decimal.uint) :
  d <> Decimal.Nil ->
  int_of_str (NilEmpty.string_of_uint d)
  = within max_str_digits (NilEmpty.string_of_uint d)
      (Z.of_N (Pos.of_uint d))
  /\ int_of_str (String "-" (NilEmpty.string_of_uint d))
     = within max_str_digits (String "-" (NilEmpty.string_of_uint d))
         (- Z.of_N (Pos.of_uint d)).
Proof.
  intros Hd. pose proof (unsigned_int_of_uint d Hd) as Hu. split.
  - unfold int_of_str. rewrite skip_left_of_uint, skip_right_of_uint.
    destruct d; [contradiction | exact Hu ..].
  - assert (Hskip : skip_right (skip_left
                                  (String "-" (NilEmpty.string_of_uint d)))
                    = String "-" (NilEmpty.string_of_uint d)).
    { cbn [skip_left]. change (is_c_space "-") with false.
      cbv iota. cbn [skip_right]. rewrite skip_right_of_uint.
      destruct (NilEmpty.string_of_uint d) eqn:Hs; [|reflexivity].
      destruct d; [contradiction | discriminate ..]. }
    unfold int_of_str. rewrite Hskip. cbv iota beta. rewrite Hu.
    unfold within. cbn [digit_count]. change (digit_of "-") with (@None Z).
    cbv iota. now destruct (_ <=? _)%nat.
Qed.

(** [int(str(n))] is [n], unless the numeral is longer than the limit. *)
Lemma int_of_str_str_int (n : Z) :
  int_of_str (str_int n) = within max_str_digits (str_int n) n.
Proof.
  destruct n as [|p|p]; [reflexivity | ..];
    unfold str_int; cbn [Z.to_int NilZero.string_of_int];
    pose proof (DecimalPos.Unsigned.to_uint_nonnil p) as Hnn;
    destruct (int_of_str_of_uint _ Hnn) as [H1 H2];
    unfold NilZero.string_of_uint;
    destruct (Pos.to_uint p) eqn:Hp; try contradiction;
    rewrite <- Hp in *; rewrite ?H1, ?H2, DecimalPos.Unsigned.of_to;
    reflexivity.
Qed.

(** X19.  The amount of a callback is read as it is written: when the
    [amount] parameter is the decimal numeral of an integer [n], negative
    or not, of at most 4300 digits, the handler works with the amount [n],
    so the amount named in an error payload, printed back, is the parameter
    that was sent; a longer numeral is refused with [ValueError]. *)
Theorem amount_read_back (request : Request) (n : Z) :
  query_get "amount" (query_params request) = Some (str_int n) ->
  ((digit_count (str_int n) <= 4300)%nat ->
   amount_received request = Some n
   /\ option_map str_int (amount_received request)
      = query_get "amount" (query_params request))
  /\ ((4300 < digit_count (str_int n))%nat ->
      amount_received request = None
      /\ forall w, amount_of request w = (inl ValueError, w)).
Proof.
  intros Hq.
  assert (Hr : amount_received request = within max_str_digits (str_int n) n).
  { unfold amount_received. rewrite Hq.
    destruct (str_int n) eqn:Hs; [|rewrite <- Hs; apply int_of_str_str_int].
    destruct n as [|p|p]; [discriminate | ..]; unfold str_int in Hs;
      cbn [Z.to_int NilZero.string_of_int NilZero.string_of_uint] in Hs;
      [|discriminate].
    pose proof (DecimalPos.Unsigned.to_uint_nonnil p) as Hnn.
    unfold NilZero.string_of_uint in Hs.
    destruct (Pos.to_uint p); [contradiction | discriminate ..]. }
  unfold amount_of. rewrite Hr, Hq. unfold within.
  fold max_str_digits.
  split; intros H.
  - apply Nat.leb_le in H. rewrite H. now split.
  - apply Nat.leb_gt in H. rewrite H. now split.
Qed.

Lemma amount_read_back_witness :
  amount_received (Demo.get [("amount", str_int 49750000)]) = Some 49750000
  /\ option_map str_int
       (amount_received (Demo.get [("amount", str_int 49750000)]))
     = query_get "amount"
         (query_params (Demo.get [("amount", str_int 49750000)])).
Proof.
  apply (proj1 (amount_read_back
                  (Demo.get [("amount", str_int 49750000)]) 49750000
                  eq_refl)).
  apply Nat.leb_le. reflexivity.
Defined.

Example amount_digits :
  digit_count (str_int 49750000) = 8%nat
  /\ digit_count (str_int (-49750000)) = 8%nat
  /\ amount_received (Demo.get [("amount", " -49750000 ")]) = Some (-49750000).
Proof. repeat split. Qed.
